(** * ttp: terminal typing practice

    A shallow embedding of [ttp.py] (class [TypingExercise], [show_results],
    [main]) and the properties of its pagination, of its typing loop and of
    the record it saves.

    Conventions of the embedding.
    - A Python [int] is a [Z]; a Python [str] is the list of its code points
      ([list Z]); the fixed messages of the program are [string] literals.
    - A Python [float] is a rational ([Q]): the program only divides,
      multiplies and subtracts floats and never branches on their value, and
      [a / b] raises [ZeroDivisionError] exactly when [b] is zero, which is
      what the model keeps.  Values that Python rounds are exact here.
    - An exception is a value of [exn]; a computation that may raise has type
      [res A].
    - The terminal is a [World]: the keys still to be read by [getch], the
      readings of [time.time()], the size answered by [getmaxyx] and the last
      frame drawn.  Writing to the screen never fails in the model
      ([curses.error] out of [addstr] is left out). *)

From Stdlib Require Import String.
From Stdlib Require Import ZArith List Bool Lia QArith.
Import ListNotations.
Local Open Scope Z_scope.

(** ** Python values and exceptions *)

Definition str := list Z.

Inductive exn : Set :=
| ZeroDivisionError
| IndexError
| ValueError
| TypeError.

Inductive res (A : Type) : Type :=
| Ok (a : A)
| Raise (e : exn).
Arguments Ok {A} a.
Arguments Raise {A} e.

Definition bind {A B : Type} (m : res A) (k : A -> res B) : res B :=
  match m with
  | Ok a => k a
  | Raise e => Raise e
  end.

Declare Scope res_scope.
Delimit Scope res_scope with res.
Notation "x <- m ;; k" := (bind m (fun x => k))
  (at level 61, m at next level, right associativity) : res_scope.
Local Open Scope res_scope.

(** [len(x)] *)
Definition len {A : Type} (l : list A) : Z := Z.of_nat (List.length l).

(** [l[i]], with Python's negative indices. *)
Definition py_index {A : Type} (l : list A) (i : Z) : res A :=
  let j := if i <? 0 then i + len l else i in
  if (j <? 0) || (len l <=? j) then Raise IndexError
  else match nth_error l (Z.to_nat j) with
       | Some a => Ok a
       | None => Raise IndexError
       end.

(** [a // b] on integers: floor division, as [Z.div]. *)
Definition floordiv (a b : Z) : res Z :=
  if b =? 0 then Raise ZeroDivisionError else Ok (a / b).

(** [a / b] on numbers. *)
Definition truediv (a b : Q) : res Q :=
  if Qeq_bool b 0 then Raise ZeroDivisionError else Ok (a / b)%Q.

(** [chr(i)] *)
Definition chr (i : Z) : res Z :=
  if (0 <=? i) && (i <=? 1114111) then Ok i else Raise ValueError.

(** [''.join(parts)] *)
Definition join (parts : list str) : str := concat parts.

(** [s.rstrip('\n')]: every trailing line feed is removed. *)
Fixpoint rstrip_nl (s : str) : str :=
  match s with
  | [] => []
  | c :: r =>
      match rstrip_nl r with
      | [] => if c =? 10 then [] else [c]
      | r' => c :: r'
      end
  end.

(** [s[a:b]] for [0 <= a]. *)
Definition slice (s : str) (a b : Z) : str :=
  firstn (Z.to_nat (b - a)) (skipn (Z.to_nat a) s).

(** ** The keys of curses the program names *)

(** [curses.KEY_BACKSPACE] (0o407 in ncurses). *)
Definition KEY_BACKSPACE : Z := 263.
(** [curses.KEY_UP] (0o403), an arrow key: a key code that is no character. *)
Definition KEY_UP : Z := 259.
(** Key codes from [KEY_MIN] to [KEY_MAX] are the function keys of curses. *)
Definition KEY_MIN : Z := 257.
Definition KEY_MAX : Z := 511.

(** ** Pagination (the first part of [run]) *)

(** The variables of the pagination loop. *)
Record Pager : Type := mkPager {
  pg_pages : list str;
  pg_page_indices : list (Z * Z);
  pg_current_page : list str;
  pg_current_chars : Z;
  pg_line_count : Z;
  pg_total_lines : Z
}.

(** One iteration of [for line in self.lines]. *)
Definition paginate_line (width page_line_count : Z) (p : Pager) (line : str)
  : res Pager :=
  let content := rstrip_nl line in
  q <- floordiv (len content + width - 1) width ;;
  let lines_needed := if q =? 0 then 1 else q in
  if (pg_line_count p + lines_needed >? page_line_count)
     && (pg_line_count p >? 0)
  then
    let page_text := join (pg_current_page p) in
    Ok {| pg_pages := pg_pages p ++ [page_text];
          pg_page_indices :=
            pg_page_indices p
              ++ [(pg_current_chars p - len page_text, pg_current_chars p)];
          pg_current_page := [line];
          pg_current_chars := pg_current_chars p + len line;
          pg_line_count := lines_needed;
          pg_total_lines := pg_total_lines p + lines_needed |}
  else
    Ok {| pg_pages := pg_pages p;
          pg_page_indices := pg_page_indices p;
          pg_current_page := pg_current_page p ++ [line];
          pg_current_chars := pg_current_chars p + len line;
          pg_line_count := pg_line_count p + lines_needed;
          pg_total_lines := pg_total_lines p + lines_needed |}.

Fixpoint paginate_lines (width page_line_count : Z) (p : Pager)
  (lines : list str) : res Pager :=
  match lines with
  | [] => Ok p
  | line :: rest =>
      p' <- paginate_line width page_line_count p line ;;
      paginate_lines width page_line_count p' rest
  end.

(** The last page is added when it holds a line. *)
Definition paginate_flush (p : Pager) : list str * list (Z * Z) :=
  match pg_current_page p with
  | [] => (pg_pages p, pg_page_indices p)
  | _ =>
      let page_text := join (pg_current_page p) in
      (pg_pages p ++ [page_text],
       pg_page_indices p
         ++ [(pg_current_chars p - len page_text, pg_current_chars p)])
  end.

(** Lines 57 to 87 of [run]: [self.pages] starts empty, [self.page_indices]
    is the list the object holds (the empty list after [__init__]). *)
Definition paginate (lines : list str) (width page_line_count : Z)
  (page_indices0 : list (Z * Z)) : res (list str * list (Z * Z)) :=
  p <- paginate_lines width page_line_count
         {| pg_pages := []; pg_page_indices := page_indices0;
            pg_current_page := []; pg_current_chars := 0;
            pg_line_count := 0; pg_total_lines := 0 |} lines ;;
  Ok (paginate_flush p).

(** ** The object and the terminal *)

(** The fields of a [TypingExercise] that [run], the drawing methods and
    [save_record] read or write. *)
Record TypingExercise : Type := mkExercise {
  exercise_name : string;
  lines : list str;
  text : str;
  total_chars : Z;
  current_pos : Z;
  correct_chars : Z;
  wrong_chars : Z;
  start_time : option Q;
  end_time : option Q;
  user_input : str;
  current_page : Z;
  total_pages : Z;
  page_line_count : Z;
  pages : list str;
  page_indices : list (Z * Z)
}.

(** [__init__], once the exercise file is read: [file_lines] is
    [f.read().splitlines(keepends=True)]. *)
Definition init (name : string) (file_lines : list str) : TypingExercise :=
  {| exercise_name := name;
     lines := file_lines;
     text := join file_lines;
     total_chars := len (join file_lines);
     current_pos := 0;
     correct_chars := 0;
     wrong_chars := 0;
     start_time := None;
     end_time := None;
     user_input := [];
     current_page := 0;
     total_pages := 0;
     page_line_count := 0;
     pages := [];
     page_indices := [] |}.

Definition set_current_pos (s : TypingExercise) (v : Z) : TypingExercise :=
  mkExercise (exercise_name s) (lines s) (text s) (total_chars s) v
    (correct_chars s) (wrong_chars s) (start_time s) (end_time s)
    (user_input s) (current_page s) (total_pages s) (page_line_count s)
    (pages s) (page_indices s).

Definition set_correct_chars (s : TypingExercise) (v : Z) : TypingExercise :=
  mkExercise (exercise_name s) (lines s) (text s) (total_chars s)
    (current_pos s) v (wrong_chars s) (start_time s) (end_time s)
    (user_input s) (current_page s) (total_pages s) (page_line_count s)
    (pages s) (page_indices s).

Definition set_wrong_chars (s : TypingExercise) (v : Z) : TypingExercise :=
  mkExercise (exercise_name s) (lines s) (text s) (total_chars s)
    (current_pos s) (correct_chars s) v (start_time s) (end_time s)
    (user_input s) (current_page s) (total_pages s) (page_line_count s)
    (pages s) (page_indices s).

Definition set_start_time (s : TypingExercise) (v : option Q)
  : TypingExercise :=
  mkExercise (exercise_name s) (lines s) (text s) (total_chars s)
    (current_pos s) (correct_chars s) (wrong_chars s) v (end_time s)
    (user_input s) (current_page s) (total_pages s) (page_line_count s)
    (pages s) (page_indices s).

Definition set_end_time (s : TypingExercise) (v : option Q) : TypingExercise :=
  mkExercise (exercise_name s) (lines s) (text s) (total_chars s)
    (current_pos s) (correct_chars s) (wrong_chars s) (start_time s) v
    (user_input s) (current_page s) (total_pages s) (page_line_count s)
    (pages s) (page_indices s).

Definition set_user_input (s : TypingExercise) (v : str) : TypingExercise :=
  mkExercise (exercise_name s) (lines s) (text s) (total_chars s)
    (current_pos s) (correct_chars s) (wrong_chars s) (start_time s)
    (end_time s) v (current_page s) (total_pages s) (page_line_count s)
    (pages s) (page_indices s).

Definition set_current_page (s : TypingExercise) (v : Z) : TypingExercise :=
  mkExercise (exercise_name s) (lines s) (text s) (total_chars s)
    (current_pos s) (correct_chars s) (wrong_chars s) (start_time s)
    (end_time s) (user_input s) v (total_pages s) (page_line_count s)
    (pages s) (page_indices s).

(** What [run] stores once the text is split into pages. *)
Definition set_paging (s : TypingExercise) (plc : Z) (pgs : list str)
  (idx : list (Z * Z)) : TypingExercise :=
  mkExercise (exercise_name s) (lines s) (text s) (total_chars s)
    (current_pos s) (correct_chars s) (wrong_chars s) (start_time s)
    (end_time s) (user_input s) 0 (len pgs) plc pgs idx.

(** The document [save_record] writes. *)
Record SessionRecord : Type := mkRecord {
  rec_exercise : string;
  rec_date : Q;
  rec_duration : Q;
  rec_total_chars : Z;
  rec_correct_chars : Z;
  rec_wrong_chars : Z;
  rec_accuracy : Q;
  rec_speed_wpm : Q
}.

(** The header lines [draw_header] writes: progress (position, total,
    ratio), elapsed seconds, speed and accuracy when they are shown, page
    number and page count when they are shown. *)
Record Header : Type := mkHeader {
  h_title : string;
  h_progress : Z * Z * Q;
  h_elapsed : Q;
  h_stats : option (Q * Q);
  h_page_info : option (Z * Z)
}.

(** A cell written by [addch]: row, column, character, colour pair. *)
Definition Cell : Type := Z * Z * Z * Z.

Inductive Frame : Type :=
| TypingFrame (h : Header) (cells : list Cell) (footer : string)
| ResultsFrame (r : SessionRecord).

Record World : Type := mkWorld {
  keys : list Z;
  clock : nat -> Q;
  ticks : nat;
  maxyx : Z * Z;
  screen : option Frame;
  stdout : list string;
  records : list SessionRecord
}.

(** [time.time()] (and [datetime.now()], which reads the same clock). *)
Definition time_time (w : World) : Q * World :=
  (clock w (ticks w),
   mkWorld (keys w) (clock w) (S (ticks w)) (maxyx w) (screen w) (stdout w)
     (records w)).

(** [stdscr.getch()]: the next key, when there is one. *)
Definition getch (w : World) : option (Z * World) :=
  match keys w with
  | [] => None
  | k :: rest =>
      Some (k, mkWorld rest (clock w) (ticks w) (maxyx w) (screen w)
                 (stdout w) (records w))
  end.

Definition set_screen (w : World) (f : Frame) : World :=
  mkWorld (keys w) (clock w) (ticks w) (maxyx w) (Some f) (stdout w)
    (records w).

Definition print (w : World) (line : string) : World :=
  mkWorld (keys w) (clock w) (ticks w) (maxyx w) (screen w)
    (stdout w ++ [line]) (records w).

Definition write_record (w : World) (r : SessionRecord) : World :=
  mkWorld (keys w) (clock w) (ticks w) (maxyx w) (screen w) (stdout w)
    (records w ++ [r]).

(** ** Drawing *)

(** [time.time() - self.start_time if self.start_time else 0]: the clock is
    read only when [start_time] is truthy. *)
Definition elapsed_since (s : TypingExercise) (w : World) : Q * World :=
  match start_time s with
  | Some t0 =>
      if Qeq_bool t0 0 then (0%Q, w)
      else let (t, w1) := time_time w in ((t - t0)%Q, w1)
  | None => (0%Q, w)
  end.

(** The speed and accuracy line of the header (lines 165 to 169). *)
Definition header_stats (s : TypingExercise) (elapsed : Q)
  : res (option (Q * Q)) :=
  if current_pos s >? 0 then
    a <- truediv (inject_Z (current_pos s)) 5 ;;
    b <- truediv elapsed 60 ;;
    speed <- truediv a b ;;
    accuracy <-
      (if current_pos s >? 0 then
         q <- truediv (inject_Z (correct_chars s)) (inject_Z (current_pos s)) ;;
         Ok (q * 100)%Q
       else Ok 0%Q) ;;
    Ok (Some (speed, accuracy))
  else Ok None.

Definition draw_header (s : TypingExercise) (w : World)
  : res (Header * World) :=
  let title := ("Terminal Typing Exercise - " ++ exercise_name s)%string in
  ratio <- truediv (inject_Z (current_pos s)) (inject_Z (total_chars s)) ;;
  let (elapsed, w1) := elapsed_since s w in
  stats <- header_stats s elapsed ;;
  let page_info :=
    if total_pages s >? 0 then Some (current_page s + 1, total_pages s)
    else None in
  Ok (mkHeader title (current_pos s, total_chars s, ratio) elapsed stats
        page_info, w1).

(** The colour pair of the character at [char_index] (lines 207 to 219). *)
Definition color_of (s : TypingExercise) (page_start char_index char : Z)
  : res Z :=
  if char_index <? current_pos s then
    let idx_in_page := char_index - page_start in
    if idx_in_page <? len (user_input s) then
      typed <- py_index (user_input s) idx_in_page ;;
      Ok (if typed =? char then 1 else 2)
    else Ok 4
  else if char_index =? current_pos s then Ok 3
  else Ok 5.

(** The loop [for char in current_page_text] of [draw_text]; [cells] are
    the cells written so far.  A cell is written when its column is inside
    the window. *)
Fixpoint draw_chars (s : TypingExercise) (height width page_start page_end : Z)
  (y line_idx col_idx char_index : Z) (chars : str) (cells : list Cell)
  : res (list Cell) :=
  match chars with
  | [] => Ok cells
  | char :: rest =>
      if y >=? height - 1 then Ok cells
      else if char_index >=? page_end then Ok cells
      else if char =? 10 then
        draw_chars s height width page_start page_end
          (y + 1) (line_idx + 1) 0 (char_index + 1) rest cells
      else
        match
          (if y >=? 5 then
             color <- color_of s page_start char_index char ;;
             Ok (if col_idx <? width then [(y, col_idx, char, color)] else [])
           else Ok [])
        with
        | Raise e => Raise e
        | Ok written =>
            if col_idx + 1 >=? width then
              if line_idx + 1 >=? page_line_count s then Ok (cells ++ written)
              else
                draw_chars s height width page_start page_end
                  (y + 1) (line_idx + 1) 0 (char_index + 1) rest
                  (cells ++ written)
            else
              draw_chars s height width page_start page_end
                y line_idx (col_idx + 1) (char_index + 1) rest
                (cells ++ written)
        end
  end.

Definition draw_text (s : TypingExercise) (w : World) : res (list Cell) :=
  if total_pages s =? 0 then Ok []
  else
    let (height, width) := maxyx w in
    current_page_text <- py_index (pages s) (current_page s) ;;
    range <- py_index (page_indices s) (current_page s) ;;
    let (page_start, page_end) := range in
    draw_chars s height width page_start page_end 5 0 0 page_start
      current_page_text [].

Definition draw_footer (s : TypingExercise) : string :=
  if current_page s <? total_pages s - 1
  then "Press ESC to quit. Press any key for next page when done"%string
  else "Press ESC to quit"%string.

(** [stdscr.clear()] followed by the three drawing methods. *)
Definition redraw (s : TypingExercise) (w : World) : res World :=
  hw <- draw_header s w ;;
  let (h, w1) := hw in
  cells <- draw_text s w1 ;;
  Ok (set_screen w1 (TypingFrame h cells (draw_footer s))).

(** ** The typing loop of [run] *)

(** Lines 121 to 123: the erase key. *)
Definition backspace (s : TypingExercise) : TypingExercise :=
  match user_input s with
  | [] => s
  | _ :: _ =>
      let s1 := set_user_input s (removelast (user_input s)) in
      set_current_pos s1 (current_pos s1 - 1)
  end.

(** Lines 126 to 131: a typed character. *)
Definition type_char (s : TypingExercise) (char : Z) : res TypingExercise :=
  let s1 := set_user_input s (user_input s ++ [char]) in
  expected <- py_index (text s1) (current_pos s1) ;;
  let s2 :=
    if char =? expected then set_correct_chars s1 (correct_chars s1 + 1)
    else set_wrong_chars s1 (wrong_chars s1 + 1) in
  Ok (set_current_pos s2 (current_pos s2 + 1)).

(** Lines 119 to 131: what a key other than ESC does. *)
Definition handle_key (s : TypingExercise) (key : Z) : res TypingExercise :=
  if (key =? KEY_BACKSPACE) || (key =? 127) then Ok (backspace s)
  else
    char <- chr key ;;
    type_char s char.

(** How a call of [run] ends. [Waiting]: [getch] blocks, no key is left. *)
Inductive run_outcome : Type :=
| Returned (completed : bool) (s : TypingExercise) (w : World)
| Raised (e : exn)
| Waiting (s : TypingExercise) (w : World)
| OutOfFuel.

Inductive step : Type :=
| Next (s : TypingExercise) (w : World)
| Stop (o : run_outcome).

(** Lines 139 and 140. *)
Definition finish (s : TypingExercise) (w : World) : run_outcome :=
  let (t, w1) := time_time w in
  Returned true (set_end_time s (Some t)) w1.

(** One iteration of [while self.current_pos < self.total_chars]. *)
Definition loop_iter (s : TypingExercise) (w : World) : step :=
  if current_pos s <? total_chars s then
    match py_index (page_indices s) (current_page s) with
    | Raise e => Stop (Raised e)
    | Ok (_, page_end) =>
        if current_pos s >=? page_end then
          if current_page s <? total_pages s - 1 then
            let s1 := set_current_page s (current_page s + 1) in
            match redraw s1 w with
            | Raise e => Stop (Raised e)
            | Ok w1 => Next s1 w1
            end
          else Stop (finish s w)
        else
          match getch w with
          | None => Stop (Waiting s w)
          | Some (key, w1) =>
              if key =? 27 then
                let (t, w2) := time_time w1 in
                Stop (Returned false (set_end_time s (Some t)) w2)
              else
                match handle_key s key with
                | Raise e => Stop (Raised e)
                | Ok s1 =>
                    match redraw s1 w1 with
                    | Raise e => Stop (Raised e)
                    | Ok w2 => Next s1 w2
                    end
                end
          end
    end
  else Stop (finish s w).

Fixpoint loop (fuel : nat) (s : TypingExercise) (w : World) : run_outcome :=
  match fuel with
  | O => OutOfFuel
  | S n =>
      match loop_iter s w with
      | Next s1 w1 => loop n s1 w1
      | Stop o => o
      end
  end.

(** The state and the terminal after [n] iterations, when the loop is still
    running. *)
Fixpoint iterations (n : nat) (s : TypingExercise) (w : World)
  : option (TypingExercise * World) :=
  match n with
  | O => Some (s, w)
  | S m =>
      match loop_iter s w with
      | Next s1 w1 => iterations m s1 w1
      | Stop _ => None
      end
  end.

(** An iteration reads a key or turns a page: this many iterations are
    enough. *)
Definition loop_fuel (s : TypingExercise) (w : World) : nat :=
  S (List.length (keys w) + Z.to_nat (total_pages s - 1 - current_page s)).

(** Lines 49 to 96: the clock is read, the text is split into pages and the
    first page is drawn. *)
Definition run_setup (s : TypingExercise) (w : World)
  : res (TypingExercise * World) :=
  let (t, w1) := time_time w in
  let s1 := set_start_time s (Some t) in
  let (height, width) := maxyx w1 in
  let plc := Z.max 1 (height - 7) in
  pi <- paginate (lines s1) width plc (page_indices s1) ;;
  let (pgs, idx) := pi in
  let s2 := set_paging s1 plc pgs idx in
  w2 <- redraw s2 w1 ;;
  Ok (s2, w2).

Definition run (s : TypingExercise) (w : World) : run_outcome :=
  match run_setup s w with
  | Raise e => Raised e
  | Ok (s2, w2) => loop (loop_fuel s2 w2) s2 w2
  end.

(** ** The record, the results screen and [main] *)

Definition save_record (s : TypingExercise) (w : World)
  : res (SessionRecord * World) :=
  let (date, w1) := time_time w in
  match end_time s, start_time s with
  | Some t1, Some t0 =>
      let duration := (t1 - t0)%Q in
      accuracy <-
        (if total_chars s >? 0 then
           q <- truediv (inject_Z (correct_chars s))
                  (inject_Z (total_chars s)) ;;
           Ok (q * 100)%Q
         else Ok 0%Q) ;;
      a <- truediv (inject_Z (total_chars s)) 5 ;;
      b <- truediv (t1 - t0)%Q 60 ;;
      speed_wpm <- truediv a b ;;
      let record :=
        mkRecord (exercise_name s) date duration (total_chars s)
          (correct_chars s) (wrong_chars s) accuracy speed_wpm in
      let (_, w2) := time_time w1 in
      Ok (record, write_record w2 record)
  | _, _ => Raise TypeError
  end.

(** [show_results]: the results are drawn, then any key ends the screen. *)
Definition show_results (w : World) (record : SessionRecord)
  : option World :=
  match getch (set_screen w (ResultsFrame record)) with
  | Some (_, w1) => Some w1
  | None => None
  end.

(** How the process ends: with an exit status, with an uncaught exception,
    or never (it waits for a key that does not come). *)
Inductive main_outcome : Type :=
| Exit (status : Z) (w : World)
| Traceback (e : exn)
| Blocked (w : World)
| Diverged.

Definition canceled_message : string :=
  String (Ascii.ascii_of_nat 10) "Exercise canceled.".

Fixpoint lookup_exercise (name : string) (dir : list (string * list str))
  : option (list str) :=
  match dir with
  | [] => None
  | (n, ls) :: rest =>
      if String.eqb n name then Some ls else lookup_exercise name rest
  end.

(** [main]; [dir] is the directory [./exercises]: the stem of each [.txt]
    file with the lines of the file. *)
Definition main (argv : list string) (dir : list (string * list str))
  (w : World) : main_outcome :=
  match argv with
  | _ :: name :: _ =>
      match lookup_exercise name dir with
      | None =>
          Exit 1 (print w ("Error: Exercise file 'exercises/" ++ name
                             ++ ".txt' not found!")%string)
      | Some file_lines =>
          let exercise := init name file_lines in
          match run exercise w with
          | Returned true s w1 =>
              match save_record s w1 with
              | Raise e => Traceback e
              | Ok (record, w2) =>
                  match show_results w2 record with
                  | Some w3 => Exit 0 w3
                  | None => Blocked w2
                  end
              end
          | Returned false s w1 => Exit 0 (print w1 canceled_message)
          | Raised e => Traceback e
          | Waiting s w1 => Blocked w1
          | OutOfFuel => Diverged
          end
      end
  | _ =>
      let w1 := print w "Usage: python3 ttp <exercise_name>" in
      let w2 := print w1 "Available exercises:" in
      Exit 1 (fold_left (fun acc f => print acc ("  - " ++ fst f)%string)
                dir w2)
  end.

(** ** Sessions used in the examples *)

(** A terminal whose clock advances by one second at each reading, starting
    at 1000. *)
Definition terminal (height width : Z) (input : list Z) : World :=
  {| keys := input;
     clock := fun n => (1000 + inject_Z (Z.of_nat n))%Q;
     ticks := 0;
     maxyx := (height, width);
     screen := None;
     stdout := [];
     records := [] |}.

(** A terminal whose clock stands still. *)
Definition frozen_terminal (height width : Z) (input : list Z) : World :=
  {| keys := input;
     clock := fun _ => 1000%Q;
     ticks := 0;
     maxyx := (height, width);
     screen := None;
     stdout := [];
     records := [] |}.

(** The terminal of 24 rows and 80 columns once [run] has read the clock
    twice (for [start_time] and for the first header). *)
Definition typing_terminal (input : list Z) : World :=
  {| keys := input;
     clock := fun n => (1000 + inject_Z (Z.of_nat n))%Q;
     ticks := 2;
     maxyx := (24, 80);
     screen := None;
     stdout := [];
     records := [] |}.

(** The text [abc]. *)
Definition abc : list str := [[97; 98; 99]].
(** The text of two lines [a] and [b], each ended by a line feed. *)
Definition two_lines : list str := [[97; 10]; [98; 10]].

(** A terminal of 24 rows and 80 columns whose clock, at its sixth reading,
    is back at its first. *)
Definition stepping_back_terminal (input : list Z) : World :=
  {| keys := input;
     clock := fun n => if (n =? 5)%nat then 1000%Q
                       else (1000 + inject_Z (Z.of_nat n))%Q;
     ticks := 0;
     maxyx := (24, 80);
     screen := None;
     stdout := [];
     records := [] |}.

(** The session on the text [abc] in a terminal of 24 rows and 80 columns,
    as [run] has it when the loop starts. *)
Definition abc_started : TypingExercise :=
  {| exercise_name := "abc";
     lines := abc;
     text := [97; 98; 99];
     total_chars := 3;
     current_pos := 0;
     correct_chars := 0;
     wrong_chars := 0;
     start_time := Some (1000 # 1);
     end_time := None;
     user_input := [];
     current_page := 0;
     total_pages := 1;
     page_line_count := 17;
     pages := [[97; 98; 99]];
     page_indices := [(0, 3)] |}.

(** ** Predicates of the statements *)

(** [ranges] are half-open ranges that follow one another from [a] to [b]:
    the first starts at [a], each starts where the one before ends, none
    runs backwards, the last ends at [b]. *)
Fixpoint tiles (a : Z) (ranges : list (Z * Z)) (b : Z) : Prop :=
  match ranges with
  | [] => a = b
  | (start, stop) :: rest => start = a /\ start <= stop /\ tiles stop rest b
  end.

(** What the pagination loop keeps true: the closed pages cover the text
    read so far up to the start of the open page. *)
Definition pager_inv (read : str) (p : Pager) : Prop :=
  tiles 0 (pg_page_indices p)
    (pg_current_chars p - len (join (pg_current_page p)))
  /\ Forall2 (fun page r => len page = snd r - fst r)
       (pg_pages p) (pg_page_indices p)
  /\ join (pg_pages p) ++ join (pg_current_page p) = read
  /\ pg_current_chars p = len read.

(** [w'] differs from [w] at most by the readings taken from the clock and
    by what is on the screen. *)
Definition same_io (w w' : World) : Prop :=
  keys w' = keys w /\ stdout w' = stdout w /\ records w' = records w
  /\ clock w' = clock w /\ maxyx w' = maxyx w.

(** An iteration that goes on either turned to the next page without
    reading a key, or read one key other than ESC and applied it. *)
Inductive iteration (s : TypingExercise) (w : World)
  : TypingExercise -> World -> Prop :=
| PageTurned (w' : World) (page_start page_end : Z) :
    current_pos s < total_chars s ->
    py_index (page_indices s) (current_page s) = Ok (page_start, page_end) ->
    page_end <= current_pos s ->
    current_page s < total_pages s - 1 ->
    redraw (set_current_page s (current_page s + 1)) w = Ok w' ->
    iteration s w (set_current_page s (current_page s + 1)) w'
| KeyApplied (key : Z) (w1 w' : World) (s' : TypingExercise)
    (page_start page_end : Z) :
    current_pos s < total_chars s ->
    py_index (page_indices s) (current_page s) = Ok (page_start, page_end) ->
    current_pos s < page_end ->
    getch w = Some (key, w1) ->
    key <> 27 ->
    handle_key s key = Ok s' ->
    redraw s' w1 = Ok w' ->
    iteration s w s' w'.

(** An erase key. *)
Definition is_erase (key : Z) : bool := (key =? KEY_BACKSPACE) || (key =? 127).

(** The number of keys of [ks] that are typed characters. *)
Definition typed_keys (ks : list Z) : Z :=
  len (filter (fun k => negb (is_erase k)) ks).

(** ** Predicates of the further properties *)

(** A session once [run] has split the text into pages: the page ranges
    cover the text, the current page is one of the pages, [user_input] has
    one character for each position passed, and the position is not past
    the end of the text. *)
Definition wf_session (s : TypingExercise) : Prop :=
  total_chars s = len (text s)
  /\ len (pages s) = total_pages s
  /\ len (page_indices s) = total_pages s
  /\ tiles 0 (page_indices s) (total_chars s)
  /\ 0 <= current_page s < total_pages s
  /\ len (user_input s) = current_pos s
  /\ current_pos s <= total_chars s.

(** A cell inside the text area of a window of [height] rows and [width]
    columns: below the five header rows, above the footer row, in a column
    of the window; the character is no line feed and the colour pair is one
    of the five the program initialises. *)
Definition cell_in_window (height width : Z) (c : Cell) : Prop :=
  let '(y, x, char, color) := c in
  5 <= y < height - 1 /\ 0 <= x < width /\ char <> 10 /\ 1 <= color <= 5.

(** The fields that no iteration of the loop changes. *)
Definition same_exercise (s s' : TypingExercise) : Prop :=
  exercise_name s' = exercise_name s
  /\ lines s' = lines s
  /\ text s' = text s
  /\ total_chars s' = total_chars s
  /\ start_time s' = start_time s
  /\ end_time s' = end_time s
  /\ total_pages s' = total_pages s
  /\ page_line_count s' = page_line_count s
  /\ pages s' = pages s
  /\ page_indices s' = page_indices s.

(** The clock of [w] shows positive times, later at every reading. *)
Definition advancing_clock (w : World) : Prop :=
  (forall n : nat, (0 < clock w n)%Q)
  /\ (forall n m : nat, (n < m)%nat -> (clock w n < clock w m)%Q).

(** A key [chr] accepts. *)
Definition code_point (key : Z) : Prop := 0 <= key <= 1114111.

(** A key the loop passes on as a typed character. *)
Definition typed_key (key : Z) : Prop :=
  code_point key /\ key <> 27 /\ key <> KEY_BACKSPACE /\ key <> 127.

(** The number of positions at which [typed] and [reference] agree. *)
Fixpoint count_correct (typed reference : str) : Z :=
  match typed, reference with
  | c :: typed', e :: reference' =>
      (if c =? e then 1 else 0) + count_correct typed' reference'
  | _, _ => 0
  end.

(** A session in order whose [start_time] was read from the clock of [w]
    before the reading that comes next. *)
Definition running (s : TypingExercise) (w : World) : Prop :=
  wf_session s
  /\ 0 < total_chars s
  /\ advancing_clock w
  /\ exists tick0 : nat,
       start_time s = Some (clock w tick0) /\ (tick0 < ticks w)%nat.

(** A session in which the keys [ks] are being typed: those typed so far
    are [user_input], the others are the next keys of the terminal, before
    [rest]; the counters count the agreements and the disagreements with the
    text. *)
Definition typing (ks rest : list Z) (s : TypingExercise) (w : World) : Prop :=
  running s w
  /\ len ks = total_chars s
  /\ correct_chars s = count_correct (user_input s) (text s)
  /\ wrong_chars s = current_pos s - correct_chars s
  /\ exists remaining : list Z,
       ks = user_input s ++ remaining /\ keys w = remaining ++ rest.

(** The screen rows [run] counts for a line (lines 65 to 68): the line
    without its trailing line feeds, cut in pieces of [width] characters,
    and one row for an empty line. *)
Definition rows_needed (width : Z) (line : str) : Z :=
  let q := (len (rstrip_nl line) + width - 1) / width in
  if q =? 0 then 1 else q.

(** The rows counted for the lines of a page. *)
Definition rows_of (width : Z) (page : list str) : Z :=
  fold_right (fun line n => rows_needed width line + n) 0 page.

(** A page within the budget of [rows] rows, or made of a single line. *)
Definition page_fits (width rows : Z) (page : list str) : Prop :=
  List.length page = 1%nat \/ rows_of width page <= rows.

(** Each page is full: the first line of the page that follows would not
    have fitted in it. *)
Definition pages_full (width rows : Z) (groups : list (list str)) : Prop :=
  forall (i : nat) (page : list str) (line : str) (more : list str),
    nth_error groups i = Some page ->
    nth_error groups (S i) = Some (line :: more) ->
    rows < rows_of width page + rows_needed width line.

(** What the pagination loop keeps true of the lines it has grouped:
    [groups] are the pages closed so far. *)
Definition pager_groups (width rows : Z) (read : list str) (p : Pager)
  (groups : list (list str)) : Prop :=
  pg_pages p = map join groups
  /\ concat groups ++ pg_current_page p = read
  /\ Forall (fun g => g <> []) groups
  /\ Forall (page_fits width rows) groups
  /\ pg_line_count p = rows_of width (pg_current_page p)
  /\ (pg_current_page p = [] -> groups = [])
  /\ (pg_current_page p = [] \/ page_fits width rows (pg_current_page p))
  /\ pages_full width rows (groups ++ [pg_current_page p]).

(** * Properties *)

Ltac case_match :=
  match goal with
  | H : context [match ?x with _ => _ end] |- _ => destruct x eqn:?
  | |- context [match ?x with _ => _ end] => destruct x eqn:?
  end.

(** ** Pagination *)

Section Pagination.

Variables width page_line_count : Z.
Hypothesis width_nonzero : width <> 0.

Lemma len_app {A : Type} (l1 l2 : list A) : len (l1 ++ l2) = len l1 + len l2.
Proof. unfold len. rewrite length_app. lia. Qed.

Lemma len_nonneg {A : Type} (l : list A) : 0 <= len l.
Proof. unfold len. lia. Qed.

Lemma join_snoc (parts : list str) (line : str) :
  join (parts ++ [line]) = join parts ++ line.
Proof. unfold join. rewrite concat_app. simpl. now rewrite app_nil_r. Qed.

Lemma tiles_snoc (ranges : list (Z * Z)) (a m e : Z) :
  tiles a ranges m -> m <= e -> tiles a (ranges ++ [(m, e)]) e.
Proof.
  revert a. induction ranges as [|[s t] rest IH]; simpl; intros a H Hle.
  - subst. auto.
  - destruct H as (-> & Hst & Hrest). auto.
Qed.

Lemma paginate_line_inv (read : str) (p : Pager) (line : str) :
  pager_inv read p ->
  exists p', paginate_line width page_line_count p line = Ok p'
             /\ pager_inv (read ++ line) p'.
Proof.
  intros (Ht & Hl & Hj & Hc).
  unfold paginate_line, floordiv.
  destruct (Z.eqb_spec width 0) as [E|_]; [contradiction|]. cbn [bind].
  set (n := if _ =? 0 then 1 else _).
  destruct ((pg_line_count p + n >? page_line_count) && (pg_line_count p >? 0)).
  - eexists. split; [reflexivity|]. unfold pager_inv. cbn.
    rewrite app_nil_r. repeat split.
    + replace (pg_current_chars p + len line - len line)
        with (pg_current_chars p) by lia.
      apply tiles_snoc; [exact Ht|].
      pose proof (len_nonneg (join (pg_current_page p))). lia.
    + apply Forall2_app; [exact Hl|]. constructor; [|constructor].
      cbn. lia.
    + rewrite join_snoc, <- Hj. reflexivity.
    + rewrite len_app. lia.
  - eexists. split; [reflexivity|]. unfold pager_inv. cbn.
    rewrite join_snoc, len_app. repeat split.
    + replace (pg_current_chars p + len line
               - (len (join (pg_current_page p)) + len line))
        with (pg_current_chars p - len (join (pg_current_page p))) by lia.
      exact Ht.
    + exact Hl.
    + rewrite <- Hj. now rewrite app_assoc.
    + rewrite len_app. lia.
Qed.

Lemma paginate_lines_inv (ls : list str) :
  forall (read : str) (p : Pager),
    pager_inv read p ->
    exists p', paginate_lines width page_line_count p ls = Ok p'
               /\ pager_inv (read ++ join ls) p'.
Proof.
  induction ls as [|line rest IH]; intros read p Hp.
  - exists p. cbn. rewrite app_nil_r. auto.
  - destruct (paginate_line_inv read p line Hp) as (p1 & E1 & Hp1).
    destruct (IH _ _ Hp1) as (p2 & E2 & Hp2).
    exists p2. cbn [paginate_lines]. rewrite E1. cbn [bind].
    split; [exact E2|].
    change (join (line :: rest)) with (line ++ join rest).
    now rewrite app_assoc.
Qed.

Lemma paginate_flush_inv (read : str) (p : Pager) :
  pager_inv read p ->
  tiles 0 (snd (paginate_flush p)) (len read)
  /\ Forall2 (fun page r => len page = snd r - fst r)
       (fst (paginate_flush p)) (snd (paginate_flush p))
  /\ join (fst (paginate_flush p)) = read.
Proof.
  intros (Ht & Hl & Hj & Hc). unfold paginate_flush.
  destruct (pg_current_page p) as [|l0 ls] eqn:E.
  - cbn in *. rewrite app_nil_r in Hj. rewrite Z.sub_0_r, Hc in Ht. auto.
  - cbn [fst snd]. repeat split.
    + rewrite <- Hc. apply tiles_snoc; [exact Ht|].
      pose proof (len_nonneg (join (l0 :: ls))). lia.
    + apply Forall2_app; [exact Hl|]. constructor; [|constructor].
      cbn [fst snd]. lia.
    + now rewrite join_snoc.
Qed.

End Pagination.

Lemma slice_middle (pre page post : str) :
  slice (pre ++ page ++ post) (len pre) (len pre + len page) = page.
Proof.
  unfold slice, len. rewrite Nat2Z.id.
  replace (Z.to_nat (Z.of_nat (List.length pre) + Z.of_nat (List.length page)
                     - Z.of_nat (List.length pre)))
    with (List.length page) by lia.
  rewrite skipn_app, skipn_all, Nat.sub_diag. cbn [skipn app].
  rewrite firstn_app, firstn_all, Nat.sub_diag. cbn. apply app_nil_r.
Qed.

Lemma tiles_slices (pgs : list str) (idx : list (Z * Z)) :
  Forall2 (fun page r => len page = snd r - fst r) pgs idx ->
  forall (pre : str) (b : Z),
    tiles (len pre) idx b ->
    Forall2 (fun page r => page = slice (pre ++ join pgs) (fst r) (snd r))
      pgs idx.
Proof.
  induction 1 as [|page [s e] pgs idx Hlen _ IH]; intros pre b Ht.
  - constructor.
  - cbn in Ht, Hlen. destruct Ht as (-> & Hle & Ht).
    replace e with (len pre + len page) in * by lia.
    constructor.
    + cbn [fst snd]. change (join (page :: pgs)) with (page ++ join pgs).
      symmetry. apply slice_middle.
    + rewrite <- len_app in Ht. specialize (IH _ _ Ht).
      change (join (page :: pgs)) with (page ++ join pgs).
      rewrite app_assoc. exact IH.
Qed.

Lemma tiles_head (a b : Z) (r : Z * Z) (rest : list (Z * Z)) :
  tiles a (r :: rest) b -> fst r = a.
Proof. destruct r. cbn. tauto. Qed.

Lemma tiles_last (ranges : list (Z * Z)) :
  forall (a b : Z) (d : Z * Z),
    tiles a ranges b -> ranges <> [] -> snd (last ranges d) = b.
Proof.
  induction ranges as [|[s e] rest IH]; intros a b d Ht Hne; [congruence|].
  destruct Ht as (_ & _ & Ht). destruct rest as [|r rest'].
  - cbn in *. auto.
  - change (last ((s, e) :: r :: rest') d) with (last (r :: rest') d).
    eapply IH; [exact Ht|discriminate].
Qed.

Lemma tiles_adjacent (ranges : list (Z * Z)) :
  forall (a b : Z) (i : nat) (r1 r2 : Z * Z),
    tiles a ranges b ->
    nth_error ranges i = Some r1 -> nth_error ranges (S i) = Some r2 ->
    fst r1 <= snd r1 /\ snd r1 = fst r2.
Proof.
  induction ranges as [|[s e] rest IH]; intros a b i r1 r2 Ht H1 H2.
  - destruct i; discriminate.
  - destruct Ht as (-> & Hle & Ht). destruct i as [|i].
    + cbn in H1. injection H1 as <-. cbn in H2.
      destruct rest as [|r rest']; [discriminate|].
      cbn in H2. injection H2 as <-. cbn [fst snd].
      split; [exact Hle|]. symmetry. eapply tiles_head; eauto.
    + cbn in H1. eapply IH; eauto.
Qed.

Lemma tiles_ordered (ranges : list (Z * Z)) :
  forall (a b : Z), tiles a ranges b ->
    Forall (fun r => a <= fst r /\ fst r <= snd r /\ snd r <= b) ranges.
Proof.
  induction ranges as [|[s e] rest IH]; intros a b Ht; constructor.
  - destruct Ht as (-> & Hle & Ht). cbn [fst snd].
    specialize (IH _ _ Ht). repeat split; try lia.
    destruct rest as [|[s' e'] rest'].
    + cbn in Ht. lia.
    + inversion IH; subst. cbn in *. lia.
  - destruct Ht as (-> & Hle & Ht). specialize (IH _ _ Ht).
    eapply Forall_impl; [|exact IH]. cbn. intros r Hr. lia.
Qed.

Lemma tiles_disjoint (ranges : list (Z * Z)) :
  forall (a b : Z) (i j : nat) (r1 r2 : Z * Z),
    tiles a ranges b -> (i < j)%nat ->
    nth_error ranges i = Some r1 -> nth_error ranges j = Some r2 ->
    snd r1 <= fst r2.
Proof.
  induction ranges as [|[s e] rest IH]; intros a b i j r1 r2 Ht Hij H1 H2.
  - destruct i; discriminate.
  - destruct j as [|j]; [lia|]. destruct Ht as (-> & Hle & Ht).
    cbn in H2. destruct i as [|i].
    + cbn in H1. injection H1 as <-. cbn [snd].
      pose proof (tiles_ordered _ _ _ Ht) as Ho.
      rewrite Forall_forall in Ho.
      apply nth_error_In in H2. specialize (Ho _ H2). cbn beta in Ho. lia.
    + cbn in H1. apply (IH _ _ i j r1 r2 Ht); [lia | exact H1 | exact H2].
Qed.

(** C3. For every list of lines and every viewport (any number of rows, any
    width but zero, which no terminal has and which line 66 cannot divide
    by) the pagination of [run] succeeds; its ranges start
    at 0, each starts where the one before ends, they do not overlap, the
    last one ends at the length of the text, every page is the slice of the
    text its range names, and the pages joined in order are the text. *)
Theorem paginate_partitions_text (ls : list str) (width rows : Z) :
  width <> 0 ->
  exists (pgs : list str) (idx : list (Z * Z)),
    paginate ls width rows [] = Ok (pgs, idx)
    /\ (forall r rest, idx = r :: rest -> fst r = 0)
    /\ (forall i r1 r2,
          nth_error idx i = Some r1 -> nth_error idx (S i) = Some r2 ->
          snd r1 = fst r2)
    /\ (forall i j r1 r2,
          (i < j)%nat ->
          nth_error idx i = Some r1 -> nth_error idx j = Some r2 ->
          fst r1 <= snd r1 /\ snd r1 <= fst r2)
    /\ (idx <> [] -> snd (last idx (0, 0)) = len (join ls))
    /\ (idx = [] -> len (join ls) = 0)
    /\ Forall2 (fun page r => page = slice (join ls) (fst r) (snd r)) pgs idx
    /\ join pgs = join ls.
Proof.
  intros Hw. unfold paginate.
  set (p0 := {| pg_pages := []; pg_page_indices := [];
                pg_current_page := []; pg_current_chars := 0;
                pg_line_count := 0; pg_total_lines := 0 |}).
  assert (H0 : pager_inv [] p0).
  { unfold pager_inv, p0; cbn. repeat split; constructor. }
  destruct (paginate_lines_inv width rows Hw ls [] p0 H0) as (p & E & Hp).
  rewrite E. cbn [bind app] in *.
  destruct (paginate_flush_inv _ _ Hp) as (Ht & Hl & Hj).
  destruct (paginate_flush p) as [pgs idx]. cbn [fst snd] in *.
  exists pgs, idx. split; [reflexivity|].
  split; [|split; [|split; [|split; [|split; [|split]]]]].
  - intros r rest ->. eapply tiles_head; eauto.
  - intros i r1 r2 H1 H2. eapply tiles_adjacent; eauto.
  - intros i j r1 r2 Hij H1 H2. split.
    + pose proof (tiles_ordered _ _ _ Ht) as Ho. rewrite Forall_forall in Ho.
      apply nth_error_In in H1. specialize (Ho _ H1). cbn beta in Ho. lia.
    + eapply tiles_disjoint; eauto.
  - intros Hne. eapply tiles_last; eauto.
  - intros ->. cbn in Ht. lia.
  - pose proof (tiles_slices pgs idx Hl [] _ Ht) as Hs.
    cbn [app] in Hs. rewrite Hj in Hs. exact Hs.
  - exact Hj.
Qed.

Lemma paginate_partitions_text_witness :
  exists (pgs : list str) (idx : list (Z * Z)),
    paginate two_lines 80 1 [] = Ok (pgs, idx)
    /\ (forall r rest, idx = r :: rest -> fst r = 0)
    /\ (forall i r1 r2,
          nth_error idx i = Some r1 -> nth_error idx (S i) = Some r2 ->
          snd r1 = fst r2)
    /\ (forall i j r1 r2,
          (i < j)%nat ->
          nth_error idx i = Some r1 -> nth_error idx j = Some r2 ->
          fst r1 <= snd r1 /\ snd r1 <= fst r2)
    /\ (idx <> [] -> snd (last idx (0, 0)) = len (join two_lines))
    /\ (idx = [] -> len (join two_lines) = 0)
    /\ Forall2 (fun page r => page = slice (join two_lines) (fst r) (snd r))
         pgs idx
    /\ join pgs = join two_lines.
Proof. apply (paginate_partitions_text two_lines 80 1). lia. Defined.

(** ** The typing loop: structure *)

Lemma bind_ok {A B : Type} (m : res A) (k : A -> res B) (b : B) :
  bind m k = Ok b -> exists a, m = Ok a /\ k a = Ok b.
Proof. destruct m; cbn; [eauto|discriminate]. Qed.

Lemma same_io_refl (w : World) : same_io w w.
Proof. repeat split. Qed.

Lemma same_io_trans (w1 w2 w3 : World) :
  same_io w1 w2 -> same_io w2 w3 -> same_io w1 w3.
Proof. unfold same_io. intuition congruence. Qed.

Lemma time_time_same_io (w : World) : same_io w (snd (time_time w)).
Proof. repeat split. Qed.

Lemma elapsed_since_same_io (s : TypingExercise) (w : World) :
  same_io w (snd (elapsed_since s w)).
Proof.
  unfold elapsed_since. repeat case_match; cbn [snd];
    try apply same_io_refl.
  match goal with H : time_time w = _ |- _ =>
    pose proof (time_time_same_io w) as Hs; rewrite H in Hs; exact Hs end.
Qed.

Lemma draw_header_same_io (s : TypingExercise) (w w' : World) (h : Header) :
  draw_header s w = Ok (h, w') -> same_io w w'.
Proof.
  unfold draw_header. intros H.
  apply bind_ok in H. destruct H as (ratio & _ & H).
  pose proof (elapsed_since_same_io s w) as Hs.
  destruct (elapsed_since s w) as [elapsed w1]. cbn [snd] in Hs.
  apply bind_ok in H. destruct H as (stats & _ & H).
  injection H as _ <-. exact Hs.
Qed.

Lemma redraw_same_io (s : TypingExercise) (w w' : World) :
  redraw s w = Ok w' -> same_io w w'.
Proof.
  unfold redraw. intros H.
  apply bind_ok in H. destruct H as ([h w1] & Hh & H).
  apply bind_ok in H. destruct H as (cells & _ & H).
  injection H as <-. apply draw_header_same_io in Hh.
  unfold same_io in *. cbn. exact Hh.
Qed.

Lemma loop_iter_next (s s' : TypingExercise) (w w' : World) :
  loop_iter s w = Next s' w' <-> iteration s w s' w'.
Proof.
  split.
  - unfold loop_iter. intros H.
    destruct (Z.ltb_spec (current_pos s) (total_chars s)) as [Hlt|];
      [|discriminate].
    destruct (py_index (page_indices s) (current_page s))
      as [[page_start page_end]|] eqn:Hidx; [|discriminate].
    destruct (Z.geb_spec (current_pos s) page_end) as [Hge|Hin].
    + destruct (Z.ltb_spec (current_page s) (total_pages s - 1)) as [Hp|];
        [|discriminate].
      destruct (redraw _ w) as [w1|] eqn:Hr; [|discriminate].
      injection H as <- <-. eapply PageTurned; eauto.
    + destruct (getch w) as [[key w1]|] eqn:Hg; [|discriminate].
      destruct (Z.eqb_spec key 27) as [|Hk].
      { destruct (time_time w1); discriminate. }
      destruct (handle_key s key) as [s1|] eqn:Hh; [|discriminate].
      destruct (redraw s1 w1) as [w2|] eqn:Hr; [|discriminate].
      injection H as <- <-. eapply KeyApplied; eauto.
  - intros H. unfold loop_iter.
    destruct H as [w1 a e Hlt Hidx Hge Hp Hr|key w1 w2 s1 a e Hlt Hidx Hin Hg Hk Hh Hr].
    + apply Z.ltb_lt in Hlt. rewrite Hlt, Hidx.
      destruct (Z.geb_spec (current_pos s) e); [|lia].
      apply Z.ltb_lt in Hp. now rewrite Hp, Hr.
    + apply Z.ltb_lt in Hlt. rewrite Hlt, Hidx.
      destruct (Z.geb_spec (current_pos s) e); [lia|].
      rewrite Hg. destruct (Z.eqb_spec key 27); [contradiction|].
      now rewrite Hh, Hr.
Qed.

Lemma getch_keys (w w1 : World) (key : Z) :
  getch w = Some (key, w1) ->
  keys w = key :: keys w1 /\ stdout w1 = stdout w /\ records w1 = records w
  /\ clock w1 = clock w /\ maxyx w1 = maxyx w /\ ticks w1 = ticks w.
Proof.
  unfold getch. destruct (keys w) as [|k rest] eqn:E; [discriminate|].
  intros H. injection H as <- <-. cbn. auto 10.
Qed.

(** ** The session transitions *)

Lemma backspace_fields (s : TypingExercise) :
  correct_chars (backspace s) = correct_chars s
  /\ wrong_chars (backspace s) = wrong_chars s
  /\ current_page (backspace s) = current_page s
  /\ total_pages (backspace s) = total_pages s
  /\ page_indices (backspace s) = page_indices s
  /\ text (backspace s) = text s
  /\ total_chars (backspace s) = total_chars s
  /\ end_time (backspace s) = end_time s
  /\ start_time (backspace s) = start_time s.
Proof. unfold backspace. destruct (user_input s); cbn; auto 10. Qed.

Lemma backspace_nonempty (s : TypingExercise) :
  user_input s <> [] ->
  user_input (backspace s) = removelast (user_input s)
  /\ current_pos (backspace s) = current_pos s - 1.
Proof.
  unfold backspace. destruct (user_input s); [congruence|]. cbn. auto.
Qed.

Lemma backspace_empty (s : TypingExercise) :
  user_input s = [] -> backspace s = s.
Proof. unfold backspace. now intros ->. Qed.

Lemma py_index_in_range {A : Type} (l : list A) (i : Z) :
  0 <= i < len l ->
  exists a, py_index l i = Ok a /\ nth_error l (Z.to_nat i) = Some a.
Proof.
  intros Hi. unfold py_index.
  destruct (Z.ltb_spec i 0); [lia|].
  destruct (Z.ltb_spec i 0); [lia|].
  destruct (Z.leb_spec (len l) i); [lia|]. cbn [orb].
  destruct (nth_error l (Z.to_nat i)) as [a|] eqn:E; [eauto|].
  apply nth_error_None in E. unfold len in Hi. lia.
Qed.

Lemma type_char_fields (s s' : TypingExercise) (c : Z) :
  type_char s c = Ok s' ->
  user_input s' = user_input s ++ [c]
  /\ current_pos s' = current_pos s + 1
  /\ correct_chars s' + wrong_chars s' = correct_chars s + wrong_chars s + 1
  /\ correct_chars s <= correct_chars s' /\ wrong_chars s <= wrong_chars s'
  /\ current_page s' = current_page s
  /\ total_pages s' = total_pages s
  /\ page_indices s' = page_indices s
  /\ text s' = text s
  /\ total_chars s' = total_chars s
  /\ end_time s' = end_time s
  /\ start_time s' = start_time s.
Proof.
  unfold type_char. intros H. apply bind_ok in H.
  destruct H as (expected & _ & H). injection H as <-.
  destruct (c =? expected); cbn; repeat split; lia.
Qed.

Lemma handle_key_fields (s s' : TypingExercise) (key : Z) :
  handle_key s key = Ok s' ->
  current_page s' = current_page s
  /\ total_pages s' = total_pages s
  /\ page_indices s' = page_indices s
  /\ text s' = text s
  /\ total_chars s' = total_chars s
  /\ end_time s' = end_time s
  /\ start_time s' = start_time s
  /\ correct_chars s <= correct_chars s'
  /\ wrong_chars s <= wrong_chars s'.
Proof.
  unfold handle_key. destruct ((key =? KEY_BACKSPACE) || (key =? 127)).
  - intros H. injection H as <-.
    pose proof (backspace_fields s). intuition (try congruence; lia).
  - intros H. apply bind_ok in H. destruct H as (c & _ & H).
    apply type_char_fields in H. intuition congruence.
Qed.

(** ** The loop ends *)

Lemma iteration_fuel (s s' : TypingExercise) (w w' : World) :
  iteration s w s' w' -> (loop_fuel s' w' < loop_fuel s w)%nat.
Proof.
  intros [w1 a e Hlt Hidx Hge Hp Hr|key w1 w2 s1 a e Hlt Hidx Hin Hg Hk Hh Hr];
    unfold loop_fuel.
  - apply redraw_same_io in Hr. destruct Hr as (-> & _). cbn. lia.
  - apply redraw_same_io in Hr. destruct Hr as (-> & _).
    apply getch_keys in Hg. destruct Hg as (-> & _).
    apply handle_key_fields in Hh. destruct Hh as (-> & -> & _). cbn. lia.
Qed.

Lemma loop_enough (f1 : nat) :
  forall (f2 : nat) (s : TypingExercise) (w : World),
    (loop_fuel s w <= f1)%nat -> (loop_fuel s w <= f2)%nat ->
    loop f1 s w = loop f2 s w.
Proof.
  induction f1 as [|f1 IH]; intros f2 s w H1 H2.
  - unfold loop_fuel in H1. lia.
  - destruct f2 as [|f2]; [unfold loop_fuel in H2; lia|]. cbn [loop].
    destruct (loop_iter s w) as [s1 w1|o] eqn:E; [|reflexivity].
    apply loop_iter_next, iteration_fuel in E. apply IH; lia.
Qed.

Lemma loop_total (fuel : nat) :
  forall (s : TypingExercise) (w : World),
    (loop_fuel s w <= fuel)%nat -> loop fuel s w <> OutOfFuel.
Proof.
  induction fuel as [|fuel IH]; intros s w H.
  - unfold loop_fuel in H. lia.
  - cbn [loop]. destruct (loop_iter s w) as [s1 w1|o] eqn:E.
    + apply loop_iter_next, iteration_fuel in E. apply IH. lia.
    + unfold loop_iter in E.
      repeat case_match; try discriminate; unfold finish in *;
        repeat case_match; congruence.
Qed.

(** [run] always comes to an end in the model: it returns, raises, or
    waits for a key. *)
Lemma run_total (s : TypingExercise) (w : World) : run s w <> OutOfFuel.
Proof.
  unfold run. destruct (run_setup s w) as [[s2 w2]|e]; [|discriminate].
  apply loop_total. lia.
Qed.

(** So [main] ends too: with an exit status, a traceback, or waiting for a
    key. *)
Lemma main_total (argv : list string) (dir : list (string * list str))
  (w : World) : main argv dir w <> Diverged.
Proof.
  unfold main. destruct argv as [|a0 [|name rest]]; try discriminate.
  destruct (lookup_exercise name dir) as [ls|]; [|discriminate].
  pose proof (run_total (init name ls) w) as Ht.
  destruct (run (init name ls) w) as [[|] s1 w1|e|s1 w1|];
    try discriminate; [|contradiction].
  destruct (save_record s1 w1) as [[r w2]|e]; [|discriminate].
  destruct (show_results w2 r); discriminate.
Qed.

Lemma iterations_fuel (n : nat) :
  forall (s s' : TypingExercise) (w w' : World),
    iterations n s w = Some (s', w') ->
    (loop_fuel s' w' + n <= loop_fuel s w)%nat.
Proof.
  induction n as [|n IH]; intros s s' w w' H; cbn in H.
  - injection H as <- <-. lia.
  - destruct (loop_iter s w) as [s1 w1|o] eqn:E; [|discriminate].
    apply loop_iter_next, iteration_fuel in E. apply IH in H. lia.
Qed.

Lemma loop_after_iterations (n : nat) :
  forall (fuel : nat) (s s' : TypingExercise) (w w' : World),
    iterations n s w = Some (s', w') ->
    loop (n + fuel) s w = loop fuel s' w'.
Proof.
  induction n as [|n IH]; intros fuel s s' w w' H; cbn in H.
  - now injection H as <- <-.
  - destruct (loop_iter s w) as [s1 w1|o] eqn:E; [|discriminate].
    cbn [Nat.add loop]. rewrite E. now apply IH.
Qed.

(** From a state reached after some iterations, the loop of [run] goes on
    as the loop started there. *)
Lemma loop_resumes (n : nat) (s s' : TypingExercise) (w w' : World) :
  iterations n s w = Some (s', w') ->
  loop (loop_fuel s w) s w = loop (loop_fuel s' w') s' w'.
Proof.
  intros H. pose proof (iterations_fuel _ _ _ _ _ H) as Hf.
  replace (loop_fuel s w) with (n + (loop_fuel s w - n))%nat by lia.
  rewrite (loop_after_iterations _ _ _ _ _ _ H).
  apply loop_enough; lia.
Qed.

(** A property of the state that every key and every page turn keep true
    holds after every iteration. *)
Lemma iterations_invariant (P : TypingExercise -> Prop) :
  (forall s key s', P s -> handle_key s key = Ok s' -> P s') ->
  (forall s, P s -> P (set_current_page s (current_page s + 1))) ->
  forall (n : nat) (s s' : TypingExercise) (w w' : World),
    P s -> iterations n s w = Some (s', w') -> P s'.
Proof.
  intros Hkey Hpage. induction n as [|n IH]; intros s s' w w' Hs H; cbn in H.
  - now injection H as <- <-.
  - destruct (loop_iter s w) as [s1 w1|o] eqn:E; [|discriminate].
    apply loop_iter_next in E. apply (IH s1 s' w1 w'); [|exact H].
    destruct E; eauto.
Qed.

(** ** Typing a character *)

Lemma type_char_in_text (s : TypingExercise) (c : Z) :
  0 <= current_pos s < len (text s) ->
  exists (expected : Z) (s' : TypingExercise),
    nth_error (text s) (Z.to_nat (current_pos s)) = Some expected
    /\ type_char s c = Ok s'
    /\ correct_chars s' =
         (if c =? expected then correct_chars s + 1 else correct_chars s)
    /\ wrong_chars s' =
         (if c =? expected then wrong_chars s else wrong_chars s + 1)
    /\ user_input s' = user_input s ++ [c]
    /\ current_pos s' = current_pos s + 1.
Proof.
  intros Hpos.
  destruct (py_index_in_range (text s) (current_pos s) Hpos)
    as (expected & Hidx & Hnth).
  unfold type_char. cbn [text current_pos set_user_input].
  rewrite Hidx. cbn [bind].
  exists expected. eexists. split; [exact Hnth|]. split; [reflexivity|].
  destruct (c =? expected); cbn; auto.
Qed.

(** C7. In a state whose position is inside the text, [type_char] compares
    the character with the character of the text at the position, adds one
    to [correct_chars] when they are equal and to [wrong_chars] otherwise,
    appends the character to [user_input] and adds one to the position.
    With the text [abc], the keys [a], [x], [c] make [run] return [True]
    with 2 correct, 1 wrong and position 3. *)
Theorem type_char_judges (s : TypingExercise) (c : Z) :
  total_chars s = len (text s) ->
  0 <= current_pos s < total_chars s ->
  (exists (expected : Z) (s' : TypingExercise),
     nth_error (text s) (Z.to_nat (current_pos s)) = Some expected
     /\ type_char s c = Ok s'
     /\ correct_chars s' =
          (if c =? expected then correct_chars s + 1 else correct_chars s)
     /\ wrong_chars s' =
          (if c =? expected then wrong_chars s else wrong_chars s + 1)
     /\ user_input s' = user_input s ++ [c]
     /\ current_pos s' = current_pos s + 1)
  /\ (exists (s' : TypingExercise) (w' : World),
        run (init "abc" abc) (terminal 24 80 [97; 120; 99])
          = Returned true s' w'
        /\ correct_chars s' = 2 /\ wrong_chars s' = 1
        /\ current_pos s' = 3 /\ total_chars s' = 3).
Proof.
  intros Ht Hpos. split.
  - rewrite Ht in Hpos. now apply type_char_in_text.
  - eexists. eexists. split; [vm_compute; reflexivity|].
    cbn. auto.
Qed.

(** ** The erase key *)

(** C9. In a state whose [user_input] has as many characters as the
    position says, an erase key at position 0 changes nothing. *)
Theorem backspace_at_start_is_noop (s : TypingExercise) (key : Z) :
  len (user_input s) = current_pos s ->
  current_pos s = 0 ->
  key = KEY_BACKSPACE \/ key = 127 ->
  backspace s = s /\ handle_key s key = Ok s.
Proof.
  intros Hlen Hpos Hkey.
  assert (E : user_input s = []).
  { destruct (user_input s); [reflexivity|]. unfold len in Hlen.
    cbn in Hlen. lia. }
  split; [now apply backspace_empty|].
  unfold handle_key.
  replace ((key =? KEY_BACKSPACE) || (key =? 127)) with true.
  - now rewrite backspace_empty.
  - destruct Hkey as [-> | ->]; reflexivity.
Qed.

(** C2, as the code has it.  The erase key after a typed character brings
    the position and [user_input] back to what they were; [correct_chars]
    and [wrong_chars] keep the values [type_char] gave them, so their sum is
    one more than before. *)
Theorem backspace_after_type_char (s s1 : TypingExercise) (c : Z) :
  type_char s c = Ok s1 ->
  current_pos (backspace s1) = current_pos s
  /\ user_input (backspace s1) = user_input s
  /\ correct_chars (backspace s1) = correct_chars s1
  /\ wrong_chars (backspace s1) = wrong_chars s1
  /\ correct_chars (backspace s1) + wrong_chars (backspace s1)
       = correct_chars s + wrong_chars s + 1.
Proof.
  intros H. apply type_char_fields in H.
  destruct H as (Hu & Hp & Hsum & _).
  assert (Hne : user_input s1 <> []).
  { rewrite Hu. destruct (user_input s); discriminate. }
  destruct (backspace_nonempty s1 Hne) as (Hu' & Hp').
  destruct (backspace_fields s1) as (Hc & Hw & _).
  rewrite Hu', Hp', Hc, Hw, Hu, removelast_last. repeat split; lia.
Qed.

Lemma abc_started_setup (ks : list Z) :
  exists w, run_setup (init "abc" abc) (terminal 24 80 ks) = Ok (abc_started, w)
            /\ keys w = ks.
Proof. eexists. split; [vm_compute; reflexivity|reflexivity]. Qed.

Lemma type_char_judges_witness :
  total_chars abc_started = len (text abc_started)
  /\ 0 <= current_pos abc_started < total_chars abc_started
  /\ (exists (expected : Z) (s' : TypingExercise),
        nth_error (text abc_started) (Z.to_nat (current_pos abc_started))
          = Some expected
        /\ type_char abc_started 120 = Ok s'
        /\ correct_chars s' =
             (if 120 =? expected then correct_chars abc_started + 1
              else correct_chars abc_started)
        /\ wrong_chars s' =
             (if 120 =? expected then wrong_chars abc_started
              else wrong_chars abc_started + 1)
        /\ user_input s' = user_input abc_started ++ [120]
        /\ current_pos s' = current_pos abc_started + 1).
Proof.
  split; [reflexivity|]. split; [cbn; lia|].
  apply (type_char_judges abc_started 120); [reflexivity | cbn; lia].
Defined.

Lemma backspace_at_start_is_noop_witness :
  len (user_input abc_started) = current_pos abc_started
  /\ current_pos abc_started = 0
  /\ backspace abc_started = abc_started
  /\ handle_key abc_started 127 = Ok abc_started.
Proof.
  split; [reflexivity|]. split; [reflexivity|].
  apply (backspace_at_start_is_noop abc_started 127);
    [reflexivity | reflexivity | right; reflexivity].
Defined.

(** C2 fails on the code: after [a] is typed at the start of [abc] and
    erased, the position is 0 again and [correct_chars] is 1, not 0. *)
Lemma backspace_leaves_counter_incremented :
  exists s1 : TypingExercise,
    type_char abc_started 97 = Ok s1
    /\ current_pos (backspace s1) = current_pos abc_started
    /\ wrong_chars (backspace s1) = wrong_chars abc_started
    /\ correct_chars abc_started = 0
    /\ correct_chars (backspace s1) = 1
    /\ correct_chars (backspace s1) <> correct_chars abc_started.
Proof.
  eexists. split; [reflexivity|]. cbn. repeat split; discriminate.
Qed.

Lemma backspace_after_type_char_witness :
  exists s1 : TypingExercise,
    type_char abc_started 97 = Ok s1
    /\ current_pos (backspace s1) = current_pos abc_started
    /\ user_input (backspace s1) = user_input abc_started
    /\ correct_chars (backspace s1) = correct_chars s1
    /\ wrong_chars (backspace s1) = wrong_chars s1
    /\ correct_chars (backspace s1) + wrong_chars (backspace s1)
         = correct_chars abc_started + wrong_chars abc_started + 1.
Proof.
  eexists. split; [reflexivity|].
  apply (backspace_after_type_char abc_started _ 97). reflexivity.
Defined.

(** ** The counters and the position *)

(** C1 fails on the code: on [abc], after [a] is typed (position 1) and
    erased (position 0), the two counters add up to 1. *)
Lemma counters_exceed_position_after_erase :
  exists (s0 s1 s2 : TypingExercise) (w0 w1 w2 : World),
    run_setup (init "abc" abc) (terminal 24 80 [97; 127]) = Ok (s0, w0)
    /\ iterations 1 s0 w0 = Some (s1, w1)
    /\ current_pos s1 = 1 /\ keys w1 = [127]
    /\ iterations 2 s0 w0 = Some (s2, w2)
    /\ current_pos s2 = 0
    /\ correct_chars s2 + wrong_chars s2 = 1
    /\ correct_chars s2 + wrong_chars s2 <> current_pos s2.
Proof.
  do 6 eexists. split; [vm_compute; reflexivity|].
  split; [vm_compute; reflexivity|]. split; [reflexivity|].
  split; [reflexivity|]. split; [vm_compute; reflexivity|].
  split; [reflexivity|]. split; [reflexivity|]. discriminate.
Qed.

Lemma typed_keys_app (ks1 ks2 : list Z) :
  typed_keys (ks1 ++ ks2) = typed_keys ks1 + typed_keys ks2.
Proof. unfold typed_keys. now rewrite filter_app, len_app. Qed.

Lemma handle_key_counts (s s' : TypingExercise) (key : Z) :
  handle_key s key = Ok s' ->
  len (user_input s) = current_pos s ->
  len (user_input s') = current_pos s'
  /\ correct_chars s' + wrong_chars s'
       = correct_chars s + wrong_chars s + typed_keys [key]
  /\ current_pos s' - current_pos s <= typed_keys [key]
  /\ (is_erase key = false -> current_pos s' - current_pos s = 1).
Proof.
  unfold handle_key, typed_keys. fold (is_erase key). cbn [filter].
  destruct (is_erase key) eqn:E; cbn [negb]; intros H Hlen.
  - injection H as <-. destruct (backspace_fields s) as (Hc & Hw & _).
    rewrite Hc, Hw. destruct (user_input s) as [|c0 u] eqn:Eu.
    + rewrite backspace_empty by exact Eu. rewrite Eu.
      unfold len in *. cbn in *. repeat split; try lia; try discriminate.
    + assert (Hne : user_input s <> []) by (rewrite Eu; discriminate).
      destruct (backspace_nonempty s Hne) as (Hu' & Hp').
      rewrite Hu', Hp', Eu.
      destruct (exists_last (l:=c0 :: u)) as (u' & c' & Eq); [discriminate|].
      rewrite Eq in *. rewrite removelast_last.
      rewrite len_app in Hlen. unfold len in *. cbn in *.
      repeat split; try lia; try discriminate.
  - apply bind_ok in H. destruct H as (c & _ & H).
    apply type_char_fields in H. destruct H as (Hu & Hp & Hsum & _).
    rewrite Hu, Hp, len_app. cbn. repeat split; lia.
Qed.

Lemma iterations_count (n : nat) :
  forall (s s' : TypingExercise) (w w' : World),
    iterations n s w = Some (s', w') ->
    len (user_input s) = current_pos s ->
    exists consumed : list Z,
      keys w = consumed ++ keys w'
      /\ len (user_input s') = current_pos s'
      /\ correct_chars s' + wrong_chars s'
           = correct_chars s + wrong_chars s + typed_keys consumed
      /\ current_pos s' - current_pos s <= typed_keys consumed
      /\ (forallb (fun k => negb (is_erase k)) consumed = true ->
          current_pos s' - current_pos s = typed_keys consumed).
Proof.
  induction n as [|n IH]; intros s s' w w' H Hlen; cbn in H.
  - injection H as <- <-. exists []. cbn. repeat split; try lia.
  - destruct (loop_iter s w) as [s1 w1|o] eqn:E; [|discriminate].
    apply loop_iter_next in E.
    destruct E as [w1 a e Hlt Hidx Hge Hp Hr
                  |key w0 w1 s1 a e Hlt Hidx Hin Hg Hk Hh Hr].
    + destruct (IH _ _ _ _ H Hlen) as (consumed & Hk & Hrest).
      exists consumed. apply redraw_same_io in Hr.
      destruct Hr as (Hr & _). rewrite <- Hr. split; [exact Hk|exact Hrest].
    + destruct (handle_key_counts _ _ _ Hh Hlen) as (Hl1 & Hs1 & Hp1 & He1).
      destruct (IH _ _ _ _ H Hl1) as (consumed & Hk' & Hl' & Hs' & Hp' & He').
      exists (key :: consumed). apply redraw_same_io in Hr.
      destruct Hr as (Hr & _). apply getch_keys in Hg.
      destruct Hg as (Hg & _). rewrite Hg, <- Hr, Hk'.
      change (key :: consumed) with ([key] ++ consumed).
      rewrite typed_keys_app. repeat split; try lia.
      cbn [app forallb]. intros Hall. apply andb_prop in Hall.
      destruct Hall as (Hkey & Hall). apply negb_true_iff in Hkey.
      specialize (He1 Hkey). specialize (He' Hall).
      assert (Hone : typed_keys [key] = 1).
      { unfold typed_keys. cbn [filter]. now rewrite Hkey. }
      lia.
Qed.

Lemma run_setup_fields (s s0 : TypingExercise) (w w0 : World) :
  run_setup s w = Ok (s0, w0) ->
  current_pos s0 = current_pos s
  /\ user_input s0 = user_input s
  /\ correct_chars s0 = correct_chars s
  /\ wrong_chars s0 = wrong_chars s
  /\ text s0 = text s
  /\ total_chars s0 = total_chars s
  /\ end_time s0 = end_time s
  /\ start_time s0 = Some (clock w (ticks w))
  /\ current_page s0 = 0
  /\ same_io w w0.
Proof.
  unfold run_setup, time_time. cbn [maxyx]. intros H.
  destruct (maxyx w) as [height width] eqn:Em.
  apply bind_ok in H. destruct H as ([pgs idx] & _ & H).
  apply bind_ok in H. destruct H as (w2 & Hr & H).
  injection H as <- <-. apply redraw_same_io in Hr.
  unfold same_io in *. cbn in Hr. rewrite Em.
  cbn. repeat split; try reflexivity; apply Hr.
Qed.

(** C1, as the code has it.  After every iteration of the loop of [run], the
    two counters add up to the number of characters typed so far: a typed
    character adds one to one counter and to the position, an erase key
    takes one from the position and leaves the counters.  So the position
    is at most the sum of the counters, and equal to it as long as no erase
    key was read. *)
Theorem counters_count_typed_keys
  (name : string) (ls : list str) (w w0 w' : World)
  (s0 s : TypingExercise) (n : nat) :
  run_setup (init name ls) w = Ok (s0, w0) ->
  iterations n s0 w0 = Some (s, w') ->
  exists consumed : list Z,
    keys w = consumed ++ keys w'
    /\ len (user_input s) = current_pos s
    /\ correct_chars s + wrong_chars s = typed_keys consumed
    /\ current_pos s <= correct_chars s + wrong_chars s
    /\ (forallb (fun k => negb (is_erase k)) consumed = true ->
        correct_chars s + wrong_chars s = current_pos s).
Proof.
  intros Hsetup Hiter. apply run_setup_fields in Hsetup.
  destruct Hsetup as (Hp & Hu & Hc & Hw & _ & _ & _ & _ & _ & Hio & _).
  cbn in Hp, Hu, Hc, Hw.
  assert (Hlen : len (user_input s0) = current_pos s0)
    by (rewrite Hu, Hp; reflexivity).
  destruct (iterations_count _ _ _ _ _ Hiter Hlen)
    as (consumed & Hk & Hl & Hs & Hle & He).
  exists consumed. rewrite <- Hio, Hk.
  repeat split; try lia. intros Hall. specialize (He Hall). lia.
Qed.

Lemma counters_count_typed_keys_witness :
  exists (s0 s : TypingExercise) (w0 w' : World),
    run_setup (init "abc" abc) (terminal 24 80 [97; 127; 98]) = Ok (s0, w0)
    /\ iterations 2 s0 w0 = Some (s, w')
    /\ exists consumed : list Z,
         keys (terminal 24 80 [97; 127; 98]) = consumed ++ keys w'
         /\ len (user_input s) = current_pos s
         /\ correct_chars s + wrong_chars s = typed_keys consumed
         /\ current_pos s <= correct_chars s + wrong_chars s
         /\ (forallb (fun k => negb (is_erase k)) consumed = true ->
             correct_chars s + wrong_chars s = current_pos s).
Proof.
  do 4 eexists. split; [vm_compute; reflexivity|].
  split; [vm_compute; reflexivity|].
  eapply (counters_count_typed_keys "abc" abc _ _ _ _ _ 2);
    [vm_compute; reflexivity | vm_compute; reflexivity].
Defined.

(** ** Pages *)

(** C4 fails on the code: with two pages [0,2) and [2,4), after the first
    page is typed and the second is shown, an erase key brings the position
    to 1, below the start of the page shown; the loop then waits for the
    next key with the second page still the current one. *)
Lemma page_stays_after_erase_across_boundary :
  exists (s0 s3 s4 : TypingExercise) (w0 w3 w4 : World),
    run_setup (init "two" two_lines) (terminal 8 80 [97; 10; 127])
      = Ok (s0, w0)
    /\ page_indices s0 = [(0, 2); (2, 4)]
    /\ iterations 3 s0 w0 = Some (s3, w3)
    /\ current_pos s3 = 2 /\ current_page s3 = 1 /\ keys w3 = [127]
    /\ iterations 4 s0 w0 = Some (s4, w4)
    /\ current_pos s4 = 1 /\ current_page s4 = 1
    /\ py_index (page_indices s4) (current_page s4) = Ok (2, 4)
    /\ py_index (page_indices s4) 0 = Ok (0, 2)
    /\ loop_iter s4 w4 = Stop (Waiting s4 w4)
    /\ run (init "two" two_lines) (terminal 8 80 [97; 10; 127])
         = Waiting s4 w4.
Proof.
  do 6 eexists. split; [vm_compute; reflexivity|].
  split; [reflexivity|]. split; [vm_compute; reflexivity|].
  do 3 (split; [reflexivity|]). split; [vm_compute; reflexivity|].
  do 4 (split; [reflexivity|]). split; vm_compute; reflexivity.
Qed.

(** C4, as the code has it.  The loop only turns pages forward: an
    iteration either turns to the next page, when the position has reached
    the end of the current page and a page follows, or applies a key and
    keeps the current page; no key, the erase key included, changes
    [current_page]. *)
Theorem page_turns_forward_only (s s' : TypingExercise) (w w' : World) :
  loop_iter s w = Next s' w' ->
  (current_page s' = current_page s + 1
   /\ current_pos s' = current_pos s
   /\ keys w' = keys w
   /\ current_page s < total_pages s - 1
   /\ exists page_start page_end,
        py_index (page_indices s) (current_page s) = Ok (page_start, page_end)
        /\ page_end <= current_pos s)
  \/ (current_page s' = current_page s
      /\ exists key, keys w = key :: keys w' /\ handle_key s key = Ok s').
Proof.
  intros H. apply loop_iter_next in H.
  destruct H as [w1 a e Hlt Hidx Hge Hp Hr
                |key w0 w1 s1 a e Hlt Hidx Hin Hg Hk Hh Hr].
  - left. apply redraw_same_io in Hr. destruct Hr as (Hr & _).
    cbn. repeat split; eauto.
  - right. apply redraw_same_io in Hr. destruct Hr as (Hr & _).
    apply getch_keys in Hg. destruct Hg as (Hg & _).
    pose proof (handle_key_fields _ _ _ Hh) as (Hcp & _).
    split; [exact Hcp|]. exists key. rewrite Hr. auto.
Qed.

Lemma page_turns_forward_only_witness :
  exists (s0 s4 s' : TypingExercise) (w0 w4 w' : World),
    run_setup (init "two" two_lines) (terminal 8 80 [97; 10; 98; 127; 98])
      = Ok (s0, w0)
    /\ iterations 3 s0 w0 = Some (s4, w4)
    /\ loop_iter s4 w4 = Next s' w'
    /\ ((current_page s' = current_page s4 + 1
         /\ current_pos s' = current_pos s4
         /\ keys w' = keys w4
         /\ current_page s4 < total_pages s4 - 1
         /\ exists page_start page_end,
              py_index (page_indices s4) (current_page s4)
                = Ok (page_start, page_end)
              /\ page_end <= current_pos s4)
        \/ (current_page s' = current_page s4
            /\ exists key,
                 keys w4 = key :: keys w' /\ handle_key s4 key = Ok s')).
Proof.
  do 6 eexists. split; [vm_compute; reflexivity|].
  split; [vm_compute; reflexivity|].
  split; [vm_compute; reflexivity|].
  apply page_turns_forward_only. vm_compute. reflexivity.
Defined.

(** ** Keys that are no characters *)

(** C6 fails on the code: the arrow key [KEY_UP] is neither ESC nor an erase
    key, and it is a function key of curses, not a character; read at the
    start of [abc] it is appended to [user_input], counted as a wrong
    character, and the position goes from 0 to 1. *)
Lemma arrow_key_advances_position :
  KEY_UP <> 27 /\ is_erase KEY_UP = false
  /\ KEY_MIN <= KEY_UP <= KEY_MAX
  /\ current_pos abc_started = 0
  /\ exists (s' : TypingExercise) (w' : World),
       loop_iter abc_started (typing_terminal [KEY_UP]) = Next s' w'
       /\ user_input s' = [KEY_UP]
       /\ wrong_chars s' = 1
       /\ current_pos s' = 1
       /\ s' <> abc_started.
Proof.
  split; [discriminate|]. split; [reflexivity|].
  split; [unfold KEY_MIN, KEY_UP, KEY_MAX; lia|]. split; [reflexivity|].
  do 2 eexists. split; [vm_compute; reflexivity|].
  do 3 (split; [reflexivity|]). discriminate.
Qed.

(** C6, as the code has it.  When the loop reads a key that is neither ESC
    nor an erase key, and the key is a code point ([chr] accepts it), the key
    is a typed character whatever it is: it is appended to [user_input], one
    of the two counters grows by one and the position advances by one; the
    loop then redraws and goes on. *)
Theorem other_keys_are_typed
  (s : TypingExercise) (w w1 : World) (key page_start page_end : Z) :
  total_chars s = len (text s) ->
  0 <= current_pos s < total_chars s ->
  py_index (page_indices s) (current_page s) = Ok (page_start, page_end) ->
  current_pos s < page_end ->
  getch w = Some (key, w1) ->
  key <> 27 -> key <> KEY_BACKSPACE -> key <> 127 ->
  0 <= key <= 1114111 ->
  exists s' : TypingExercise,
    handle_key s key = Ok s'
    /\ type_char s key = Ok s'
    /\ user_input s' = user_input s ++ [key]
    /\ current_pos s' = current_pos s + 1
    /\ correct_chars s' + wrong_chars s' = correct_chars s + wrong_chars s + 1
    /\ loop_iter s w =
         match redraw s' w1 with
         | Ok w2 => Next s' w2
         | Raise e => Stop (Raised e)
         end.
Proof.
  intros Ht Hpos Hidx Hin Hg Hesc Hbs Hdel Hchr.
  rewrite Ht in Hpos.
  destruct (type_char_in_text s key Hpos) as (expected & s' & _ & Htc & _).
  assert (Hh : handle_key s key = Ok s').
  { unfold handle_key, chr.
    destruct (Z.eqb_spec key KEY_BACKSPACE); [contradiction|].
    destruct (Z.eqb_spec key 127); [contradiction|]. cbn [orb].
    destruct (Z.leb_spec 0 key); [|lia].
    destruct (Z.leb_spec key 1114111); [|lia]. exact Htc. }
  exists s'. pose proof (type_char_fields _ _ _ Htc) as (Hu & Hp & Hsum & _).
  repeat split; auto.
  unfold loop_iter. destruct (Z.ltb_spec (current_pos s) (total_chars s));
    [|lia].
  rewrite Hidx. destruct (Z.geb_spec (current_pos s) page_end); [lia|].
  rewrite Hg. destruct (Z.eqb_spec key 27); [contradiction|].
  now rewrite Hh.
Qed.

Lemma other_keys_are_typed_witness :
  exists s' : TypingExercise,
    handle_key abc_started KEY_UP = Ok s'
    /\ type_char abc_started KEY_UP = Ok s'
    /\ user_input s' = user_input abc_started ++ [KEY_UP]
    /\ current_pos s' = current_pos abc_started + 1
    /\ correct_chars s' + wrong_chars s'
         = correct_chars abc_started + wrong_chars abc_started + 1
    /\ loop_iter abc_started (typing_terminal [KEY_UP]) =
         match redraw s' (typing_terminal []) with
         | Ok w2 => Next s' w2
         | Raise e => Stop (Raised e)
         end.
Proof.
  apply (other_keys_are_typed abc_started (typing_terminal [KEY_UP])
           (typing_terminal []) KEY_UP 0 3);
    try reflexivity; try discriminate; cbn; unfold KEY_UP; lia.
Defined.

(** ** Cancelling *)

Lemma iteration_same_io (s s' : TypingExercise) (w w' : World) :
  iteration s w s' w' ->
  stdout w' = stdout w /\ records w' = records w /\ clock w' = clock w.
Proof.
  intros [w1 a e Hlt Hidx Hge Hp Hr|key w0 w1 s1 a e Hlt Hidx Hin Hg Hk Hh Hr];
    apply redraw_same_io in Hr; destruct Hr as (_ & Hs & Hr & Hc & _).
  - auto.
  - apply getch_keys in Hg. destruct Hg as (_ & Hs' & Hr' & Hc' & _).
    repeat split; congruence.
Qed.

Lemma iterations_same_io (n : nat) :
  forall (s s' : TypingExercise) (w w' : World),
    iterations n s w = Some (s', w') ->
    stdout w' = stdout w /\ records w' = records w /\ clock w' = clock w.
Proof.
  induction n as [|n IH]; intros s s' w w' H; cbn in H.
  - injection H as <- <-. auto.
  - destruct (loop_iter s w) as [s1 w1|o] eqn:E; [|discriminate].
    apply loop_iter_next, iteration_same_io in E. apply IH in H.
    destruct E as (? & ? & ?), H as (? & ? & ?). repeat split; congruence.
Qed.

(** C8. When the loop of [run] reads ESC (the position is then below
    [total_chars]), [run] sets [end_time] and returns [False]; [main] then
    calls neither [save_record] nor [show_results]: no record is written,
    the cancel message is printed and the process ends. *)
Theorem cancel_reports_not_completed
  (argv0 name : string) (dir : list (string * list str)) (ls : list str)
  (w w0 w1 : World) (s0 s : TypingExercise) (n : nat) (rest : list Z)
  (page_start page_end : Z) :
  lookup_exercise name dir = Some ls ->
  run_setup (init name ls) w = Ok (s0, w0) ->
  iterations n s0 w0 = Some (s, w1) ->
  current_pos s < total_chars s ->
  py_index (page_indices s) (current_page s) = Ok (page_start, page_end) ->
  current_pos s < page_end ->
  keys w1 = 27 :: rest ->
  exists (s' : TypingExercise) (w' : World),
    run (init name ls) w = Returned false s' w'
    /\ end_time s' = Some (clock w1 (ticks w1))
    /\ current_pos s' < total_chars s'
    /\ main [argv0; name] dir w = Exit 0 (print w' canceled_message)
    /\ records (print w' canceled_message) = records w
    /\ stdout (print w' canceled_message) = stdout w ++ [canceled_message].
Proof.
  intros Hdir Hsetup Hiter Hlt Hidx Hin Hkeys.
  assert (Hrun : run (init name ls) w
                 = Returned false (set_end_time s (Some (clock w1 (ticks w1))))
                     (mkWorld rest (clock w1) (S (ticks w1)) (maxyx w1)
                        (screen w1) (stdout w1) (records w1))).
  { unfold run. rewrite Hsetup. rewrite (loop_resumes _ _ _ _ _ Hiter).
    unfold loop_fuel. cbn [loop]. unfold loop_iter.
    destruct (Z.ltb_spec (current_pos s) (total_chars s)); [|lia].
    rewrite Hidx. destruct (Z.geb_spec (current_pos s) page_end); [lia|].
    unfold getch. rewrite Hkeys. reflexivity. }
  do 2 eexists. split; [exact Hrun|].
  split; [reflexivity|]. split; [exact Hlt|].
  apply run_setup_fields in Hsetup.
  destruct Hsetup as (_ & _ & _ & _ & _ & _ & _ & _ & _ & Hio).
  destruct Hio as (_ & Hso & Hro & _).
  destruct (iterations_same_io _ _ _ _ _ Hiter) as (Hs1 & Hr1 & _).
  split; [|split].
  - unfold main. rewrite Hdir, Hrun. reflexivity.
  - cbn. congruence.
  - cbn. congruence.
Qed.

Lemma cancel_reports_not_completed_witness :
  exists (s0 s : TypingExercise) (w0 w1 : World),
    lookup_exercise "abc" [("abc"%string, abc)] = Some abc
    /\ run_setup (init "abc" abc) (terminal 24 80 [97; 27]) = Ok (s0, w0)
    /\ iterations 1 s0 w0 = Some (s, w1)
    /\ current_pos s < total_chars s
    /\ py_index (page_indices s) (current_page s) = Ok (0, 3)
    /\ current_pos s < 3
    /\ keys w1 = [27]
    /\ exists (s' : TypingExercise) (w' : World),
         run (init "abc" abc) (terminal 24 80 [97; 27]) = Returned false s' w'
         /\ end_time s' = Some (clock w1 (ticks w1))
         /\ current_pos s' < total_chars s'
         /\ main ["ttp"%string; "abc"%string] [("abc"%string, abc)]
              (terminal 24 80 [97; 27])
            = Exit 0 (print w' canceled_message)
         /\ records (print w' canceled_message)
            = records (terminal 24 80 [97; 27])
         /\ stdout (print w' canceled_message)
            = stdout (terminal 24 80 [97; 27]) ++ [canceled_message].
Proof.
  do 4 eexists.
  split; [reflexivity|]. split; [vm_compute; reflexivity|].
  split; [vm_compute; reflexivity|]. split; [reflexivity|].
  split; [reflexivity|]. split; [reflexivity|]. split; [reflexivity|].
  eapply (cancel_reports_not_completed "ttp" "abc" [("abc"%string, abc)] abc
            _ _ _ _ _ 1 [] 0 3);
    try reflexivity; vm_compute; reflexivity.
Defined.

(** ** Divisions *)

Lemma truediv_by_zero (a b : Q) : (b == 0)%Q -> truediv a b = Raise ZeroDivisionError.
Proof. intros H. unfold truediv. apply Qeq_bool_iff in H. now rewrite H. Qed.

Lemma truediv_ok (a b : Q) : ~ (b == 0)%Q -> truediv a b = Ok (a / b)%Q.
Proof.
  intros H. unfold truediv. destruct (Qeq_bool b 0) eqn:E; [|reflexivity].
  apply Qeq_bool_iff in E. contradiction.
Qed.

(** At position 0 the header shows no speed and no accuracy, whatever the
    elapsed time: the guard on the position covers that case. *)
Lemma header_stats_at_start (s : TypingExercise) (elapsed : Q) :
  current_pos s <= 0 -> header_stats s elapsed = Ok None.
Proof.
  intros H. unfold header_stats.
  destruct (Z.gtb_spec (current_pos s) 0); [lia|reflexivity].
Qed.

(** Past position 0 the speed is divided by the elapsed minutes with no
    guard: when no time has elapsed, the header raises. *)
Lemma header_stats_no_time_elapsed (s : TypingExercise) (elapsed : Q) :
  0 < current_pos s -> (elapsed == 0)%Q ->
  header_stats s elapsed = Raise ZeroDivisionError.
Proof.
  intros Hpos He. unfold header_stats.
  destruct (Z.gtb_spec (current_pos s) 0); [|lia].
  rewrite (truediv_ok _ 5) by discriminate. cbn [bind].
  rewrite (truediv_ok elapsed 60) by discriminate. cbn [bind].
  rewrite truediv_by_zero; [reflexivity|].
  rewrite He. reflexivity.
Qed.

(** [save_record] divides by the minutes between [start_time] and
    [end_time] with no guard. *)
Lemma save_record_no_duration (s : TypingExercise) (w : World) (t0 t1 : Q) :
  start_time s = Some t0 -> end_time s = Some t1 -> (t1 == t0)%Q ->
  save_record s w = Raise ZeroDivisionError.
Proof.
  intros Hs He Heq. unfold save_record. cbn [time_time]. rewrite Hs, He.
  assert (Hacc : exists acc,
             (if total_chars s >? 0
              then q <- truediv (inject_Z (correct_chars s))
                          (inject_Z (total_chars s)) ;; Ok (q * 100)%Q
              else Ok 0%Q) = Ok acc).
  { destruct (Z.gtb_spec (total_chars s) 0); [|eauto].
    rewrite truediv_ok; [cbn; eauto|].
    intros H0. assert (inject_Z (total_chars s) == inject_Z 0)%Q as H1
      by exact H0.
    rewrite inject_Z_injective in H1. lia. }
  destruct Hacc as (acc & ->). cbn [bind].
  rewrite (truediv_ok _ 5) by discriminate. cbn [bind].
  rewrite (truediv_ok _ 60) by discriminate. cbn [bind].
  rewrite truediv_by_zero; [reflexivity|].
  rewrite Heq. unfold Qminus. rewrite Qplus_opp_r. reflexivity.
Qed.

(** C5 does not hold on the code.  When the clock has not advanced between
    the start of [run] and the header drawn after the first key, the header
    raises [ZeroDivisionError] and [run] ends with it; when [end_time] equals
    [start_time], [save_record] raises it and [main] ends with a
    traceback. *)
Theorem speed_raises_when_no_time_elapsed :
  run (init "abc" abc) (frozen_terminal 24 80 [97]) = Raised ZeroDivisionError
  /\ main ["ttp"%string; "abc"%string] [("abc"%string, abc)]
       (frozen_terminal 24 80 [97])
     = Traceback ZeroDivisionError
  /\ (exists (s : TypingExercise) (w : World),
        run (init "abc" abc) (stepping_back_terminal [97; 98; 99])
          = Returned true s w
        /\ end_time s = start_time s
        /\ save_record s w = Raise ZeroDivisionError)
  /\ main ["ttp"%string; "abc"%string] [("abc"%string, abc)]
       (stepping_back_terminal [97; 98; 99])
     = Traceback ZeroDivisionError.
Proof.
  split; [vm_compute; reflexivity|]. split; [vm_compute; reflexivity|].
  split; [|vm_compute; reflexivity].
  do 2 eexists. split; [vm_compute; reflexivity|].
  split; [reflexivity|]. vm_compute. reflexivity.
Qed.

(** ** The accuracy of the record *)

(** C10. On the text [abc], the keys [a], erase, [a], [b], [c] complete the
    session (one more key leaves the results screen); the record written has
    4 correct characters out of 3, and its accuracy, 4 / 3 * 100, is above
    100. *)
Theorem record_accuracy_exceeds_100 :
  exists (r : SessionRecord) (w' : World),
    main ["ttp"%string; "abc"%string] [("abc"%string, abc)]
      (terminal 24 80 [97; 127; 97; 98; 99; 32])
    = Exit 0 w'
    /\ records w' = [r]
    /\ rec_total_chars r = 3
    /\ rec_correct_chars r = 4
    /\ rec_wrong_chars r = 0
    /\ (rec_accuracy r == inject_Z 4 / inject_Z 3 * 100)%Q
    /\ (100 < rec_accuracy r)%Q.
Proof.
  do 2 eexists. split; [vm_compute; reflexivity|].
  split; [reflexivity|]. cbn. repeat split; reflexivity.
Qed.

(** * Further properties *)

(** ** The state of a running session *)

Lemma paginate_shape (ls : list str) (width rows : Z)
  (pgs : list str) (idx : list (Z * Z)) :
  paginate ls width rows [] = Ok (pgs, idx) ->
  tiles 0 idx (len (join ls))
  /\ Forall2 (fun page r => len page = snd r - fst r) pgs idx
  /\ join pgs = join ls.
Proof.
  intros H. destruct (Z.eq_dec width 0) as [->|Hw].
  - destruct ls as [|l ls]; [|discriminate].
    cbn in H. injection H as <- <-. cbn. repeat split; constructor.
  - unfold paginate in H.
    set (p0 := {| pg_pages := []; pg_page_indices := [];
                  pg_current_page := []; pg_current_chars := 0;
                  pg_line_count := 0; pg_total_lines := 0 |}) in H.
    assert (H0 : pager_inv [] p0).
    { unfold pager_inv, p0; cbn. repeat split; constructor. }
    destruct (paginate_lines_inv width rows Hw ls [] p0 H0) as (p & E & Hp).
    rewrite E in H. cbn [bind app] in *.
    pose proof (paginate_flush_inv _ _ Hp) as Hf.
    injection H as H. rewrite H in Hf. exact Hf.
Qed.

Lemma truediv_raises (a b : Q) (e : exn) :
  truediv a b = Raise e -> e = ZeroDivisionError.
Proof. unfold truediv. destruct (Qeq_bool b 0); congruence. Qed.

Lemma inject_Z_zero (z : Z) : (inject_Z z == 0)%Q <-> z = 0.
Proof.
  split.
  - intros H. change 0%Q with (inject_Z 0) in H.
    now rewrite inject_Z_injective in H.
  - intros ->. reflexivity.
Qed.

Lemma draw_header_needs_text (s : TypingExercise) (w w' : World) (h : Header) :
  draw_header s w = Ok (h, w') -> total_chars s <> 0.
Proof.
  unfold draw_header. intros H. apply bind_ok in H.
  destruct H as (ratio & Hr & _). intros Hz.
  rewrite truediv_by_zero in Hr; [discriminate|]. now apply inject_Z_zero.
Qed.

Lemma redraw_needs_text (s : TypingExercise) (w w' : World) :
  redraw s w = Ok w' -> total_chars s <> 0.
Proof.
  unfold redraw. intros H. apply bind_ok in H.
  destruct H as ([h w1] & Hh & _). eapply draw_header_needs_text; eauto.
Qed.

Lemma tiles_nonempty (idx : list (Z * Z)) (a b : Z) :
  tiles a idx b -> a <> b -> idx <> [].
Proof. destruct idx; cbn; congruence. Qed.

(** When the first screen has been drawn, the session is in order. *)
Lemma run_setup_wf (name : string) (ls : list str) (w w0 : World)
  (s0 : TypingExercise) :
  run_setup (init name ls) w = Ok (s0, w0) ->
  wf_session s0
  /\ text s0 = join ls /\ 0 < total_chars s0
  /\ current_pos s0 = 0 /\ user_input s0 = []
  /\ correct_chars s0 = 0 /\ wrong_chars s0 = 0
  /\ end_time s0 = None.
Proof.
  intros H. pose proof H as H'. unfold run_setup, time_time in H.
  cbn [maxyx] in H. destruct (maxyx w) as [height width].
  apply bind_ok in H. destruct H as ([pgs idx] & Hp & H).
  apply bind_ok in H. destruct H as (w2 & Hr & H).
  injection H as <- <-. apply redraw_needs_text in Hr. cbn in Hr.
  cbn [lines init set_start_time page_indices] in Hp.
  apply paginate_shape in Hp. destruct Hp as (Ht & Hl & Hj).
  pose proof (len_nonneg (join ls)) as Hn.
  assert (Hne : idx <> []) by (eapply tiles_nonempty; eauto).
  assert (Hlen : len pgs = len idx).
  { unfold len. f_equal. exact (Forall2_length Hl). }
  unfold wf_session. cbn. repeat split; try lia; auto.
  destruct idx; [congruence|]. unfold len in *. cbn in *. lia.
Qed.

Lemma type_char_needs_room (s s' : TypingExercise) (c : Z) :
  len (user_input s) = current_pos s ->
  type_char s c = Ok s' -> current_pos s < len (text s).
Proof.
  intros Hlen H. unfold type_char in H. apply bind_ok in H.
  destruct H as (expected & Hidx & _). cbn in Hidx.
  unfold py_index in Hidx. pose proof (len_nonneg (user_input s)).
  destruct (Z.ltb_spec (current_pos s) 0); [lia|].
  destruct (Z.ltb_spec (current_pos s) 0); [lia|].
  destruct (Z.leb_spec (len (text s)) (current_pos s)); [discriminate|lia].
Qed.

Lemma handle_key_wf (s s' : TypingExercise) (key : Z) :
  wf_session s -> handle_key s key = Ok s' -> wf_session s'.
Proof.
  intros (Ht & Hp & Hi & Htl & Hcp & Hu & Hpos) H.
  pose proof (handle_key_fields _ _ _ H)
    as (Ecp & Etp & Epi & Etx & Etc & _).
  pose proof (handle_key_counts _ _ _ H Hu) as (Hu' & _ & Hle & _).
  assert (Epg : pages s' = pages s).
  { unfold handle_key in H.
    destruct ((key =? KEY_BACKSPACE) || (key =? 127)).
    - injection H as <-. unfold backspace. destruct (user_input s); reflexivity.
    - apply bind_ok in H. destruct H as (c & _ & H). unfold type_char in H.
      apply bind_ok in H. destruct H as (x & _ & H). injection H as <-.
      destruct (c =? x); reflexivity. }
  unfold wf_session. rewrite Ecp, Etp, Epi, Etx, Etc, Epg.
  repeat split; try tauto; try lia.
  unfold handle_key in H.
  destruct ((key =? KEY_BACKSPACE) || (key =? 127)).
  - injection H as <-. unfold backspace.
    destruct (user_input s); cbn; lia.
  - apply bind_ok in H. destruct H as (c & _ & H).
    pose proof (type_char_needs_room _ _ _ Hu H).
    apply type_char_fields in H. lia.
Qed.

Lemma iteration_wf (s s' : TypingExercise) (w w' : World) :
  wf_session s -> iteration s w s' w' -> wf_session s'.
Proof.
  intros Hwf [w1 a e Hlt Hidx Hge Hp Hr
             |key w0 w1 s1 a e Hlt Hidx Hin Hg Hk Hh Hr].
  - destruct Hwf as (Ht & Hpg & Hi & Htl & Hcp & Hu & Hpos).
    unfold wf_session. cbn. repeat split; auto; lia.
  - eapply handle_key_wf; eauto.
Qed.

Lemma iterations_wf (n : nat) :
  forall (s s' : TypingExercise) (w w' : World),
    wf_session s -> iterations n s w = Some (s', w') -> wf_session s'.
Proof.
  induction n as [|n IH]; intros s s' w w' Hwf H; cbn in H.
  - now injection H as <- <-.
  - destruct (loop_iter s w) as [s1 w1|o] eqn:E; [|discriminate].
    apply loop_iter_next in E. eapply IH; [|exact H].
    eapply iteration_wf; eauto.
Qed.

(** ** Drawing the text *)

Lemma color_of_ok (s : TypingExercise) (page_start char_index char : Z) :
  page_start <= char_index ->
  exists color, color_of s page_start char_index char = Ok color
                /\ 1 <= color <= 5.
Proof.
  intros Hle. unfold color_of.
  destruct (char_index <? current_pos s).
  - destruct (Z.ltb_spec (char_index - page_start) (len (user_input s)))
      as [Hlt|_].
    + destruct (py_index_in_range (user_input s) (char_index - page_start))
        as (typed & -> & _); [lia|]. cbn [bind].
      destruct (typed =? char); eexists; split; try reflexivity; lia.
    + eexists; split; [reflexivity|lia].
  - destruct (char_index =? current_pos s);
      eexists; split; try reflexivity; lia.
Qed.

Lemma draw_chars_cells (s : TypingExercise)
  (height width page_start page_end : Z) (chars : str) :
  forall (y line_idx col_idx char_index : Z) (cells : list Cell),
    page_start <= char_index -> 0 <= col_idx ->
    Forall (cell_in_window height width) cells ->
    exists cells',
      draw_chars s height width page_start page_end y line_idx col_idx
        char_index chars cells = Ok cells'
      /\ Forall (cell_in_window height width) cells'.
Proof.
  induction chars as [|char rest IH];
    intros y line_idx col_idx char_index cells Hidx Hcol Hcells;
    cbn [draw_chars].
  - eauto.
  - destruct (Z.geb_spec y (height - 1)) as [|Hy]; [eauto|].
    destruct (char_index >=? page_end); [eauto|].
    destruct (Z.eqb_spec char 10) as [|Hnl].
    { apply IH; auto; lia. }
    assert (Hw : exists written,
               (if y >=? 5
                then color <- color_of s page_start char_index char ;;
                     Ok (if col_idx <? width
                         then [(y, col_idx, char, color)] else [])
                else Ok []) = Ok written
               /\ Forall (cell_in_window height width) written).
    { destruct (Z.geb_spec y 5) as [Hy5|]; [|eexists; split; eauto].
      destruct (color_of_ok s page_start char_index char Hidx)
        as (color & -> & Hc). cbn [bind].
      destruct (Z.ltb_spec col_idx width) as [Hx|];
        eexists; (split; [reflexivity|]); [|constructor].
      constructor; [|constructor]. cbn. repeat split; auto; lia. }
    destruct Hw as (written & -> & Hwr).
    assert (Hall : Forall (cell_in_window height width) (cells ++ written))
      by (apply Forall_app; auto).
    destruct (col_idx + 1 >=? width).
    + destruct (line_idx + 1 >=? page_line_count s); [eauto|].
      apply IH; auto; lia.
    + apply IH; auto; lia.
Qed.

Lemma py_index_ok {A : Type} (l : list A) (i : Z) :
  0 <= i < len l -> exists a, py_index l i = Ok a.
Proof.
  intros H. destruct (py_index_in_range l i H) as (a & Ha & _). eauto.
Qed.

Lemma draw_text_cells (s : TypingExercise) (w : World) :
  wf_session s ->
  exists cells, draw_text s w = Ok cells
                /\ Forall (cell_in_window (fst (maxyx w)) (snd (maxyx w)))
                     cells.
Proof.
  intros (Ht & Hp & Hi & Htl & Hcp & Hu & Hpos). unfold draw_text.
  destruct (total_pages s =? 0); [exists []; split; auto|].
  destruct (maxyx w) as [height width]. cbn [fst snd].
  destruct (py_index_ok (pages s) (current_page s)) as (txt & ->); [lia|].
  destruct (py_index_ok (page_indices s) (current_page s))
    as ([a e] & ->); [lia|]. cbn [bind].
  apply draw_chars_cells; auto; lia.
Qed.

(** ** What [run] can raise *)

Lemma bind_raise {A B : Type} (m : res A) (k : A -> res B) (e : exn) :
  bind m k = Raise e ->
  m = Raise e \/ exists a, m = Ok a /\ k a = Raise e.
Proof. destruct m; cbn; intros H; [eauto|left; congruence]. Qed.

Lemma header_stats_raises (s : TypingExercise) (elapsed : Q) (e : exn) :
  header_stats s elapsed = Raise e -> e = ZeroDivisionError.
Proof.
  unfold header_stats. destruct (current_pos s >? 0); [|discriminate].
  intros H.
  repeat (apply bind_raise in H;
          destruct H as [H|(? & _ & H)];
          [now apply truediv_raises in H|]).
  apply bind_raise in H. destruct H as [H|(? & _ & H)]; [|discriminate].
  apply bind_raise in H. destruct H as [H|(? & _ & H)]; [|discriminate].
  now apply truediv_raises in H.
Qed.

Lemma draw_header_raises (s : TypingExercise) (w : World) (e : exn) :
  draw_header s w = Raise e -> e = ZeroDivisionError.
Proof.
  unfold draw_header. intros H. apply bind_raise in H.
  destruct H as [H|(ratio & _ & H)]; [now apply truediv_raises in H|].
  destruct (elapsed_since s w) as [elapsed w1].
  apply bind_raise in H. destruct H as [H|(? & _ & H)]; [|discriminate].
  now apply header_stats_raises in H.
Qed.

Lemma redraw_raises (s : TypingExercise) (w : World) (e : exn) :
  wf_session s -> redraw s w = Raise e -> e = ZeroDivisionError.
Proof.
  intros Hwf H. unfold redraw in H. apply bind_raise in H.
  destruct H as [H|([h w1] & _ & H)]; [now apply draw_header_raises in H|].
  destruct (draw_text_cells s w1 Hwf) as (cells & Hc & _).
  rewrite Hc in H. discriminate.
Qed.

Lemma handle_key_raises (s : TypingExercise) (key : Z) (e : exn) :
  wf_session s -> current_pos s < total_chars s ->
  handle_key s key = Raise e ->
  e = ValueError /\ ~ 0 <= key <= 1114111.
Proof.
  intros (Ht & _ & _ & _ & _ & Hu & _) Hlt H. unfold handle_key in H.
  destruct ((key =? KEY_BACKSPACE) || (key =? 127)); [discriminate|].
  unfold chr in H.
  destruct (Z.leb_spec 0 key); destruct (Z.leb_spec key 1114111);
    cbn [andb bind] in H; try (injection H as <-; split; [reflexivity|lia]).
  pose proof (len_nonneg (user_input s)).
  destruct (type_char_in_text s key) as (x & s' & _ & Hok & _); [lia|].
  congruence.
Qed.

Lemma iteration_keys (s s' : TypingExercise) (w w' : World) :
  iteration s w s' w' -> incl (keys w') (keys w).
Proof.
  intros [w1 a e Hlt Hidx Hge Hp Hr|key w0 w1 s1 a e Hlt Hidx Hin Hg Hk Hh Hr];
    apply redraw_same_io in Hr; destruct Hr as (-> & _).
  - apply incl_refl.
  - apply getch_keys in Hg. destruct Hg as (-> & _). apply incl_tl, incl_refl.
Qed.

Lemma loop_iter_raises (s : TypingExercise) (w : World) (e : exn) :
  wf_session s -> loop_iter s w = Stop (Raised e) ->
  e = ZeroDivisionError
  \/ (e = ValueError
      /\ exists key, In key (keys w) /\ ~ 0 <= key <= 1114111).
Proof.
  intros Hwf H. pose proof Hwf as (Ht & Hp & Hi & Htl & Hcp & Hu & Hpos).
  unfold loop_iter in H.
  destruct (Z.ltb_spec (current_pos s) (total_chars s)) as [Hlt|];
    [|unfold finish in H; destruct (time_time w); discriminate].
  destruct (py_index_ok (page_indices s) (current_page s))
    as ([a pe] & Hidx); [lia|]. rewrite Hidx in H.
  destruct (current_pos s >=? pe).
  - destruct (Z.ltb_spec (current_page s) (total_pages s - 1)) as [Hlast|];
      [|unfold finish in H; destruct (time_time w); discriminate].
    destruct (redraw _ w) as [w1|e1] eqn:Hr; [discriminate|].
    injection H as <-. left. eapply redraw_raises; [|exact Hr].
    unfold wf_session. cbn. repeat split; auto; lia.
  - destruct (getch w) as [[key w1]|] eqn:Hg; [|discriminate].
    destruct (key =? 27); [destruct (time_time w1); discriminate|].
    destruct (handle_key s key) as [s1|e1] eqn:Hh.
    + destruct (redraw s1 w1) as [w2|e2] eqn:Hr; [discriminate|].
      injection H as <-. left. eapply redraw_raises; [|exact Hr].
      eapply handle_key_wf; eauto.
    + injection H as <-. right.
      destruct (handle_key_raises _ _ _ Hwf Hlt Hh) as (-> & Hbad).
      split; [reflexivity|]. exists key. split; [|exact Hbad].
      apply getch_keys in Hg. destruct Hg as (-> & _). now left.
Qed.

Lemma loop_raises (fuel : nat) :
  forall (s : TypingExercise) (w : World) (e : exn),
    wf_session s -> loop fuel s w = Raised e ->
    e = ZeroDivisionError
    \/ (e = ValueError
        /\ exists key, In key (keys w) /\ ~ 0 <= key <= 1114111).
Proof.
  induction fuel as [|fuel IH]; intros s w e Hwf H; [discriminate|].
  cbn [loop] in H. destruct (loop_iter s w) as [s1 w1|o] eqn:E.
  - apply loop_iter_next in E.
    destruct (IH _ _ _ (iteration_wf _ _ _ _ Hwf E) H)
      as [->|(-> & key & Hin & Hbad)]; [now left|].
    right. split; [reflexivity|]. exists key. split; [|exact Hbad].
    eapply iteration_keys; eauto.
  - subst o. eapply loop_iter_raises; eauto.
Qed.

Lemma paginate_raises (ls : list str) (width rows : Z)
  (idx0 : list (Z * Z)) (e : exn) :
  paginate ls width rows idx0 = Raise e ->
  e = ZeroDivisionError /\ width = 0 /\ ls <> [].
Proof.
  intros H. destruct (Z.eq_dec width 0) as [->|Hw].
  - destruct ls; [discriminate|]. cbn in H. injection H as <-.
    repeat split. discriminate.
  - exfalso. unfold paginate in H. apply bind_raise in H.
    destruct H as [H|(? & _ & H)]; [|discriminate].
    revert H. generalize
      {| pg_pages := []; pg_page_indices := idx0; pg_current_page := [];
         pg_current_chars := 0; pg_line_count := 0; pg_total_lines := 0 |}.
    induction ls as [|l ls IH]; intros p H; [discriminate|].
    cbn [paginate_lines] in H. apply bind_raise in H.
    destruct H as [H|(p' & _ & H)]; [|eauto].
    unfold paginate_line, floordiv in H.
    destruct (Z.eqb_spec width 0); [contradiction|]. cbn [bind] in H.
    destruct (_ && _); discriminate.
Qed.

Lemma paged_wf (name : string) (ls : list str) (t : option Q)
  (width rows plc : Z) (pgs : list str) (idx : list (Z * Z)) :
  paginate ls width rows [] = Ok (pgs, idx) ->
  len (join ls) <> 0 ->
  wf_session (set_paging (set_start_time (init name ls) t) plc pgs idx).
Proof.
  intros Hp Hne. apply paginate_shape in Hp. destruct Hp as (Ht & Hl & Hj).
  pose proof (len_nonneg (join ls)) as Hn.
  assert (Hidx : idx <> []) by (eapply tiles_nonempty; eauto).
  assert (Hlen : len pgs = len idx).
  { unfold len. f_equal. exact (Forall2_length Hl). }
  unfold wf_session. cbn. repeat split; try lia; auto.
  destruct idx; [congruence|]. unfold len in *. cbn in *. lia.
Qed.

Lemma run_setup_raises (name : string) (ls : list str) (w : World) (e : exn) :
  run_setup (init name ls) w = Raise e -> e = ZeroDivisionError.
Proof.
  unfold run_setup, time_time. cbn [maxyx]. intros H.
  destruct (maxyx w) as [height width].
  apply bind_raise in H. destruct H as [H|([pgs idx] & Hp & H)].
  { now apply paginate_raises in H. }
  apply bind_raise in H. destruct H as [H|(? & _ & H)]; [|discriminate].
  unfold redraw in H. apply bind_raise in H.
  destruct H as [H|([h w1] & Hh & H)]; [now apply draw_header_raises in H|].
  apply draw_header_needs_text in Hh. cbn in Hh.
  cbn [lines init set_start_time page_indices] in Hp.
  match type of H with
  | bind (draw_text ?s2 _) _ = _ =>
      destruct (draw_text_cells s2 w1) as (cells & Hc & _)
  end.
  { eapply paged_wf; eauto. }
  rewrite Hc in H. discriminate.
Qed.

Lemma tiles_last_nth (ranges : list (Z * Z)) :
  forall (a b : Z) (i : nat) (r : Z * Z),
    tiles a ranges b -> nth_error ranges i = Some r ->
    S i = List.length ranges -> snd r = b.
Proof.
  induction ranges as [|[s e] rest IH]; intros a b i r Ht Hn Hi.
  - discriminate.
  - destruct Ht as (_ & _ & Ht). destruct i as [|i].
    + cbn in Hn. injection Hn as <-. destruct rest; [|discriminate].
      cbn in *. auto.
    + cbn in Hn, Hi. eapply IH; eauto.
Qed.

Lemma py_index_nth {A : Type} (l : list A) (i : Z) (a : A) :
  0 <= i -> py_index l i = Ok a -> nth_error l (Z.to_nat i) = Some a.
Proof.
  intros Hi H. unfold py_index in H.
  destruct (Z.ltb_spec i 0); [lia|].
  destruct ((i <? 0) || (len l <=? i)); [discriminate|].
  destruct (nth_error l (Z.to_nat i)); congruence.
Qed.

(** The range of the current page of a session in order. *)
Lemma current_range (s : TypingExercise) :
  wf_session s ->
  exists page_start page_end,
    py_index (page_indices s) (current_page s) = Ok (page_start, page_end)
    /\ 0 <= page_start <= page_end /\ page_end <= total_chars s
    /\ (current_page s = total_pages s - 1 -> page_end = total_chars s).
Proof.
  intros (Ht & Hp & Hi & Htl & Hcp & Hu & Hpos).
  destruct (py_index_in_range (page_indices s) (current_page s))
    as ([a e] & Hidx & Hnth); [lia|].
  exists a, e. split; [exact Hidx|].
  pose proof (tiles_ordered _ _ _ Htl) as Ho. rewrite Forall_forall in Ho.
  specialize (Ho _ (nth_error_In _ _ Hnth)). cbn in Ho.
  split; [lia|]. split; [lia|]. intros Hlast.
  apply (tiles_last_nth _ _ _ _ (a, e) Htl Hnth).
  unfold len in Hi. lia.
Qed.

(** The position does not pass the end of the current page. *)
Lemma page_bound_step (s s' : TypingExercise) (w w' : World) :
  wf_session s ->
  (forall a e, py_index (page_indices s) (current_page s) = Ok (a, e) ->
               current_pos s <= e) ->
  iteration s w s' w' ->
  forall a e, py_index (page_indices s') (current_page s') = Ok (a, e) ->
              current_pos s' <= e.
Proof.
  intros Hwf Hb Hit. pose proof Hwf as (Ht & Hp & Hi & Htl & Hcp & Hu & Hpos).
  destruct Hit as [w1 a0 e0 Hlt Hidx Hge Hpg Hr
                  |key w0 w1 s1 a0 e0 Hlt Hidx Hin Hg Hk Hh Hr];
    intros a e Hae.
  - cbn in Hae |- *. specialize (Hb _ _ Hidx).
    apply py_index_nth in Hidx; [|lia]. apply py_index_nth in Hae; [|lia].
    replace (Z.to_nat (current_page s + 1))
      with (S (Z.to_nat (current_page s))) in Hae by lia.
    destruct (tiles_adjacent _ _ _ _ _ _ Htl Hidx Hae) as (_ & Hadj).
    pose proof (tiles_ordered _ _ _ Htl) as Ho. rewrite Forall_forall in Ho.
    specialize (Ho _ (nth_error_In _ _ Hae)). cbn in *. lia.
  - pose proof (handle_key_fields _ _ _ Hh) as (Ecp & _ & Epi & _).
    rewrite Ecp, Epi, Hidx in Hae. injection Hae as <- <-.
    pose proof (handle_key_counts _ _ _ Hh Hu) as (_ & _ & Hle & _).
    assert (typed_keys [key] <= 1).
    { unfold typed_keys. cbn. destruct (negb (is_erase key)); cbn; lia. }
    lia.
Qed.

Lemma iterations_page_bound (n : nat) :
  forall (s s' : TypingExercise) (w w' : World),
    wf_session s ->
    (forall a e, py_index (page_indices s) (current_page s) = Ok (a, e) ->
                 current_pos s <= e) ->
    iterations n s w = Some (s', w') ->
    forall a e, py_index (page_indices s') (current_page s') = Ok (a, e) ->
                current_pos s' <= e.
Proof.
  induction n as [|n IH]; intros s s' w w' Hwf Hb H; cbn in H.
  - now injection H as <- <-.
  - destruct (loop_iter s w) as [s1 w1|o] eqn:E; [|discriminate].
    apply loop_iter_next in E.
    apply (IH s1 s' w1 w'); [eapply iteration_wf; eauto| |exact H].
    eapply page_bound_step; eauto.
Qed.



(** X2. After every iteration of the loop of [run]: the position is between
    0 and [total_chars], [user_input] holds one character for each position
    passed, [current_page] is the index of a page, and the range of that page
    lies inside the text and ends at or after the position. *)
Theorem session_stays_in_bounds
  (name : string) (ls : list str) (w w0 w1 : World)
  (s0 s : TypingExercise) (n : nat) :
  run_setup (init name ls) w = Ok (s0, w0) ->
  iterations n s0 w0 = Some (s, w1) ->
  0 <= current_pos s <= total_chars s
  /\ total_chars s = len (join ls)
  /\ len (user_input s) = current_pos s
  /\ 0 <= current_page s < total_pages s
  /\ total_pages s = len (page_indices s)
  /\ exists page_start page_end,
       py_index (page_indices s) (current_page s) = Ok (page_start, page_end)
       /\ 0 <= page_start <= page_end
       /\ page_end <= total_chars s
       /\ current_pos s <= page_end.
Proof.
  intros Hs Hit.
  pose proof (run_setup_wf _ _ _ _ _ Hs) as (Hwf0 & Htx & Hpos0 & Hp0 & _).
  pose proof (iterations_wf _ _ _ _ _ Hwf0 Hit) as Hwf.
  pose proof Hwf as (Ht & Hp & Hi & Htl & Hcp & Hu & Hpos).
  pose proof (len_nonneg (user_input s)).
  assert (Hb0 : forall a e,
             py_index (page_indices s0) (current_page s0) = Ok (a, e) ->
             current_pos s0 <= e).
  { intros a e Hae. destruct (current_range s0 Hwf0) as (a' & e' & Hr & Hle & _).
    rewrite Hr in Hae. injection Hae as <- <-. lia. }
  pose proof (iterations_page_bound _ _ _ _ _ Hwf0 Hb0 Hit) as Hb.
  destruct (current_range s Hwf) as (a & e & Hr & Hle & Hle' & _).
  assert (Htot : total_chars s = len (join ls)).
  { rewrite Ht. clear - Hit Htx. revert s0 w0 Hit Htx.
    induction n as [|n IH]; intros s0 w0 Hit Htx; cbn in Hit.
    - injection Hit as <- <-. now rewrite Htx.
    - destruct (loop_iter s0 w0) as [s1 w2|o] eqn:E; [|discriminate].
      apply loop_iter_next in E. apply (IH s1 w2 Hit).
      destruct E as [? ? ? ? ? ? ? ?|? ? ? ? ? ? ? ? ? ? ? Hh ?]; [exact Htx|].
      apply handle_key_fields in Hh. destruct Hh as (_ & _ & _ & -> & _).
      exact Htx. }
  repeat split; try lia.
  exists a, e. repeat split; try lia; auto. eapply Hb; eauto.
Qed.

Lemma session_stays_in_bounds_witness :
  exists (s0 s : TypingExercise) (w0 w1 : World),
    run_setup (init "two" two_lines) (terminal 8 80 [97; 10; 127]) = Ok (s0, w0)
    /\ iterations 4 s0 w0 = Some (s, w1)
    /\ 0 <= current_pos s <= total_chars s
    /\ total_chars s = len (join two_lines)
    /\ len (user_input s) = current_pos s
    /\ 0 <= current_page s < total_pages s
    /\ total_pages s = len (page_indices s)
    /\ exists page_start page_end,
         py_index (page_indices s) (current_page s) = Ok (page_start, page_end)
         /\ 0 <= page_start <= page_end
         /\ page_end <= total_chars s
         /\ current_pos s <= page_end.
Proof.
  do 4 eexists. split; [vm_compute; reflexivity|].
  split; [vm_compute; reflexivity|].
  eapply (session_stays_in_bounds "two" two_lines
            (terminal 8 80 [97; 10; 127]) _ _ _ _ 4);
    [vm_compute; reflexivity | vm_compute; reflexivity].
Defined.

(** ** How [run] ends *)

Lemma same_exercise_refl (s : TypingExercise) : same_exercise s s.
Proof. repeat split. Qed.

Lemma same_exercise_trans (s1 s2 s3 : TypingExercise) :
  same_exercise s1 s2 -> same_exercise s2 s3 -> same_exercise s1 s3.
Proof. unfold same_exercise. intuition congruence. Qed.

Lemma handle_key_same_exercise (s s' : TypingExercise) (key : Z) :
  handle_key s key = Ok s' -> same_exercise s s'.
Proof.
  unfold handle_key. destruct ((key =? KEY_BACKSPACE) || (key =? 127)).
  - intros H. injection H as <-. unfold backspace.
    destruct (user_input s); repeat split.
  - intros H. apply bind_ok in H. destruct H as (c & _ & H).
    unfold type_char in H. apply bind_ok in H.
    destruct H as (x & _ & H). injection H as <-.
    destruct (c =? x); repeat split.
Qed.

Lemma iteration_same_exercise (s s' : TypingExercise) (w w' : World) :
  iteration s w s' w' -> same_exercise s s'.
Proof.
  intros [w1 a e Hlt Hidx Hge Hp Hr|key w0 w1 s1 a e Hlt Hidx Hin Hg Hk Hh Hr].
  - repeat split.
  - eapply handle_key_same_exercise; eauto.
Qed.

Lemma iterations_same_exercise (n : nat) :
  forall (s s' : TypingExercise) (w w' : World),
    iterations n s w = Some (s', w') -> same_exercise s s'.
Proof.
  induction n as [|n IH]; intros s s' w w' H; cbn in H.
  - injection H as <- <-. apply same_exercise_refl.
  - destruct (loop_iter s w) as [s1 w1|o] eqn:E; [|discriminate].
    apply loop_iter_next, iteration_same_exercise in E.
    eapply same_exercise_trans; eauto.
Qed.

Lemma loop_stops (fuel : nat) :
  forall (s : TypingExercise) (w : World) (o : run_outcome),
    loop fuel s w = o -> o <> OutOfFuel ->
    exists (n : nat) (s1 : TypingExercise) (w1 : World),
      iterations n s w = Some (s1, w1) /\ loop_iter s1 w1 = Stop o.
Proof.
  induction fuel as [|fuel IH]; intros s w o H Ho; [cbn in H; congruence|].
  cbn [loop] in H. destruct (loop_iter s w) as [s1 w1|o1] eqn:E.
  - destruct (IH _ _ _ H Ho) as (n & s2 & w2 & Hit & Hst).
    exists (S n), s2, w2. cbn [iterations]. rewrite E. auto.
  - subst o1. exists O, s, w. auto.
Qed.

Lemma iterations_consumed (n : nat) :
  forall (s s' : TypingExercise) (w w' : World),
    iterations n s w = Some (s', w') ->
    exists consumed : list Z,
      keys w = consumed ++ keys w' /\ ~ In 27 consumed.
Proof.
  induction n as [|n IH]; intros s s' w w' H; cbn in H.
  - injection H as <- <-. exists []. auto.
  - destruct (loop_iter s w) as [s1 w1|o] eqn:E; [|discriminate].
    apply loop_iter_next in E. destruct (IH _ _ _ _ H) as (consumed & Hk & Hn).
    destruct E as [w1 a e Hlt Hidx Hge Hp Hr
                  |key w0 w1 s1 a e Hlt Hidx Hin Hg Hk' Hh Hr];
      apply redraw_same_io in Hr; destruct Hr as (Hr & _).
    + exists consumed. rewrite <- Hr. auto.
    + apply getch_keys in Hg. destruct Hg as (Hg & _).
      exists (key :: consumed). rewrite Hg, <- Hr, Hk. split; [reflexivity|].
      intros [Heq|Hin']; [congruence|contradiction].
Qed.

Lemma loop_iter_completed (s1 s : TypingExercise) (w1 w' : World) :
  wf_session s1 ->
  loop_iter s1 w1 = Stop (Returned true s w') ->
  s = set_end_time s1 (Some (clock w1 (ticks w1)))
  /\ current_pos s1 = total_chars s1
  /\ keys w' = keys w1
  /\ stdout w' = stdout w1 /\ records w' = records w1.
Proof.
  intros Hwf H. pose proof Hwf as (Ht & Hp & Hi & Htl & Hcp & Hu & Hpos).
  unfold loop_iter in H.
  destruct (Z.ltb_spec (current_pos s1) (total_chars s1)) as [Hlt|Hge].
  - destruct (current_range s1 Hwf) as (a & e & Hidx & _ & Hle & Hlast).
    rewrite Hidx in H. destruct (Z.geb_spec (current_pos s1) e) as [Hpe|].
    + destruct (Z.ltb_spec (current_page s1) (total_pages s1 - 1)).
      * destruct (redraw _ w1); discriminate.
      * assert (e = total_chars s1) by (apply Hlast; lia). lia.
    + destruct (getch w1) as [[key w2]|]; [|discriminate].
      destruct (key =? 27); [discriminate|].
      destruct (handle_key s1 key); [|discriminate].
      destruct (redraw _ w2); discriminate.
  - unfold finish, time_time in H. injection H as <- <-.
    repeat split. lia.
Qed.

Lemma loop_iter_cancelled (s1 s : TypingExercise) (w1 w' : World) :
  loop_iter s1 w1 = Stop (Returned false s w') ->
  s = set_end_time s1 (Some (clock w1 (ticks w1)))
  /\ current_pos s1 < total_chars s1
  /\ keys w1 = 27 :: keys w'.
Proof.
  intros H. unfold loop_iter in H.
  destruct (Z.ltb_spec (current_pos s1) (total_chars s1)) as [Hlt|Hge];
    [|discriminate].
  destruct (py_index _ _) as [[a e]|]; [|discriminate].
  destruct (current_pos s1 >=? e).
  - destruct (current_page s1 <? total_pages s1 - 1); [|discriminate].
    destruct (redraw _ w1); discriminate.
  - destruct (getch w1) as [[key w2]|] eqn:Hg; [|discriminate].
    apply getch_keys in Hg. destruct Hg as (Hg & _ & _ & Hc & _ & Htk).
    destruct (Z.eqb_spec key 27) as [->|].
    + unfold time_time in H. injection H as <- <-. cbn.
      rewrite Hc, Htk. auto.
    + destruct (handle_key s1 key); [|discriminate].
      destruct (redraw _ w2); discriminate.
Qed.

Lemma loop_iter_waiting (s1 s : TypingExercise) (w1 w' : World) :
  loop_iter s1 w1 = Stop (Waiting s w') ->
  s = s1 /\ w' = w1 /\ keys w1 = [] /\ current_pos s1 < total_chars s1.
Proof.
  intros H. unfold loop_iter in H.
  destruct (Z.ltb_spec (current_pos s1) (total_chars s1)) as [Hlt|Hge];
    [|discriminate].
  destruct (py_index _ _) as [[a e]|]; [|discriminate].
  destruct (current_pos s1 >=? e).
  - destruct (current_page s1 <? total_pages s1 - 1); [|discriminate].
    destruct (redraw _ w1); discriminate.
  - unfold getch in H. destruct (keys w1) as [|key rest] eqn:Hk.
    + injection H as <- <-. auto.
    + destruct (key =? 27); [discriminate|].
      destruct (handle_key s1 key); [|discriminate].
      destruct (redraw _ _); discriminate.
Qed.

(** Where the loop of [run] stopped. *)
Lemma run_stops (name : string) (ls : list str) (w : World) (o : run_outcome) :
  run (init name ls) w = o -> (forall e, o <> Raised e) ->
  exists (s0 s1 : TypingExercise) (w0 w1 : World) (n : nat),
    run_setup (init name ls) w = Ok (s0, w0)
    /\ iterations n s0 w0 = Some (s1, w1)
    /\ loop_iter s1 w1 = Stop o.
Proof.
  intros H Hr. pose proof (run_total (init name ls) w) as Ht.
  unfold run in *.
  destruct (run_setup (init name ls) w) as [[s0 w0]|e] eqn:Hs;
    [|subst o; now contradiction (Hr e)].
  rewrite H in Ht.
  destruct (loop_stops _ _ _ _ H Ht) as (n & s1 & w1 & Hit & Hst).
  exists s0, s1, w0, w1, n. auto.
Qed.

(** What is known of a state the loop of [run] has reached. *)
Lemma run_trace (name : string) (ls : list str) (w w0 w1 : World)
  (s0 s1 : TypingExercise) (n : nat) :
  run_setup (init name ls) w = Ok (s0, w0) ->
  iterations n s0 w0 = Some (s1, w1) ->
  wf_session s1
  /\ total_chars s1 = len (join ls)
  /\ end_time s1 = None
  /\ exists consumed : list Z,
       keys w = consumed ++ keys w1
       /\ ~ In 27 consumed
       /\ correct_chars s1 + wrong_chars s1 = typed_keys consumed
       /\ current_pos s1 <= correct_chars s1 + wrong_chars s1.
Proof.
  intros Hs Hit.
  pose proof (run_setup_wf _ _ _ _ _ Hs)
    as (Hwf0 & Htx & Hpos0 & Hp0 & Hu0 & Hc0 & Hw0 & He0).
  pose proof (iterations_wf _ _ _ _ _ Hwf0 Hit) as Hwf.
  pose proof (iterations_same_exercise _ _ _ _ _ Hit)
    as (_ & _ & Etx & Etc & _ & Eet & _).
  destruct Hwf0 as (Ht0 & _ & _ & _ & _ & Hlen0 & _).
  destruct (iterations_count _ _ _ _ _ Hit Hlen0)
    as (c1 & Hk1 & _ & Hsum & Hle & _).
  destruct (iterations_consumed _ _ _ _ _ Hit) as (c2 & Hk2 & Hno).
  assert (c1 = c2) by (eapply app_inv_tail; rewrite <- Hk1; exact Hk2).
  subst c2. apply run_setup_fields in Hs.
  destruct Hs as (_ & _ & _ & _ & _ & _ & _ & _ & _ & Hk & _).
  split; [exact Hwf|]. split; [rewrite Etc, Ht0, Htx; reflexivity|].
  split; [congruence|]. exists c1. rewrite <- Hk.
  repeat split; auto; lia.
Qed.

(** X3. When [run] returns [True], every character of the text has been
    judged: the position is [total_chars], [user_input] has that many
    characters and [end_time] is set.  The keys read hold no ESC, the two
    counters add up to the number of characters typed, which is at least
    [total_chars], and the keys not read are left for what comes next. *)
Theorem completed_means_all_judged
  (name : string) (ls : list str) (w w' : World) (s : TypingExercise) :
  run (init name ls) w = Returned true s w' ->
  current_pos s = total_chars s
  /\ total_chars s = len (join ls)
  /\ len (user_input s) = total_chars s
  /\ (exists t, end_time s = Some t)
  /\ exists consumed : list Z,
       keys w = consumed ++ keys w'
       /\ ~ In 27 consumed
       /\ correct_chars s + wrong_chars s = typed_keys consumed
       /\ total_chars s <= correct_chars s + wrong_chars s.
Proof.
  intros H.
  destruct (run_stops _ _ _ _ H)
    as (s0 & s1 & w0 & w1 & n & Hs & Hit & Hst); [discriminate|].
  destruct (run_trace _ _ _ _ _ _ _ _ Hs Hit)
    as (Hwf & Htot & _ & consumed & Hk & Hno & Hsum & Hle).
  destruct (loop_iter_completed _ _ _ _ Hwf Hst) as (-> & Hpos & Hkeys & _).
  destruct Hwf as (_ & _ & _ & _ & _ & Hu & _). cbn.
  repeat split; try lia; eauto.
  exists consumed. rewrite Hkeys. repeat split; auto; lia.
Qed.

Lemma completed_means_all_judged_witness :
  exists (s : TypingExercise) (w' : World),
    run (init "abc" abc) (terminal 24 80 [97; 127; 120; 98; 99; 32])
      = Returned true s w'
    /\ current_pos s = total_chars s
    /\ total_chars s = len (join abc)
    /\ len (user_input s) = total_chars s
    /\ (exists t, end_time s = Some t)
    /\ exists consumed : list Z,
         keys (terminal 24 80 [97; 127; 120; 98; 99; 32])
           = consumed ++ keys w'
         /\ ~ In 27 consumed
         /\ correct_chars s + wrong_chars s = typed_keys consumed
         /\ total_chars s <= correct_chars s + wrong_chars s.
Proof.
  do 2 eexists. split; [vm_compute; reflexivity|].
  apply (completed_means_all_judged "abc" abc
           (terminal 24 80 [97; 127; 120; 98; 99; 32])).
  vm_compute. reflexivity.
Defined.

(** X4. [run] returns [False] only at an ESC: the keys read before it hold
    no ESC, so it is the first ESC of the input; the position is then below
    [total_chars], [end_time] is set and the keys after the ESC are left
    unread. *)
Theorem cancelled_means_esc_read
  (name : string) (ls : list str) (w w' : World) (s : TypingExercise) :
  run (init name ls) w = Returned false s w' ->
  current_pos s < total_chars s
  /\ (exists t, end_time s = Some t)
  /\ exists consumed : list Z,
       keys w = consumed ++ 27 :: keys w'
       /\ ~ In 27 consumed
       /\ correct_chars s + wrong_chars s = typed_keys consumed.
Proof.
  intros H.
  destruct (run_stops _ _ _ _ H)
    as (s0 & s1 & w0 & w1 & n & Hs & Hit & Hst); [discriminate|].
  destruct (run_trace _ _ _ _ _ _ _ _ Hs Hit)
    as (Hwf & Htot & _ & consumed & Hk & Hno & Hsum & Hle).
  destruct (loop_iter_cancelled _ _ _ _ Hst) as (-> & Hpos & Hkeys). cbn.
  repeat split; eauto. exists consumed. rewrite <- Hkeys. auto.
Qed.

Lemma cancelled_means_esc_read_witness :
  exists (s : TypingExercise) (w' : World),
    run (init "abc" abc) (terminal 24 80 [97; 27; 98; 27]) = Returned false s w'
    /\ current_pos s < total_chars s
    /\ (exists t, end_time s = Some t)
    /\ exists consumed : list Z,
         keys (terminal 24 80 [97; 27; 98; 27]) = consumed ++ 27 :: keys w'
         /\ ~ In 27 consumed
         /\ correct_chars s + wrong_chars s = typed_keys consumed.
Proof.
  do 2 eexists. split; [vm_compute; reflexivity|].
  apply (cancelled_means_esc_read "abc" abc
           (terminal 24 80 [97; 27; 98; 27])).
  vm_compute. reflexivity.
Defined.

(** X5. [run] is left waiting in [getch] only when the whole input has been
    read, it held no ESC, and the position is still below [total_chars];
    [end_time] is then unset. *)
Theorem waiting_means_input_exhausted
  (name : string) (ls : list str) (w w' : World) (s : TypingExercise) :
  run (init name ls) w = Waiting s w' ->
  keys w' = []
  /\ ~ In 27 (keys w)
  /\ current_pos s < total_chars s
  /\ end_time s = None
  /\ correct_chars s + wrong_chars s = typed_keys (keys w).
Proof.
  intros H.
  destruct (run_stops _ _ _ _ H)
    as (s0 & s1 & w0 & w1 & n & Hs & Hit & Hst); [discriminate|].
  destruct (run_trace _ _ _ _ _ _ _ _ Hs Hit)
    as (Hwf & Htot & Hend & consumed & Hk & Hno & Hsum & Hle).
  destruct (loop_iter_waiting _ _ _ _ Hst) as (-> & -> & Hkeys & Hpos).
  rewrite Hkeys, app_nil_r in Hk. subst consumed. auto.
Qed.

Lemma waiting_means_input_exhausted_witness :
  exists (s : TypingExercise) (w' : World),
    run (init "abc" abc) (terminal 24 80 [97; 127; 120]) = Waiting s w'
    /\ keys w' = []
    /\ ~ In 27 (keys (terminal 24 80 [97; 127; 120]))
    /\ current_pos s < total_chars s
    /\ end_time s = None
    /\ correct_chars s + wrong_chars s
         = typed_keys (keys (terminal 24 80 [97; 127; 120])).
Proof.
  do 2 eexists. split; [vm_compute; reflexivity|].
  apply (waiting_means_input_exhausted "abc" abc
           (terminal 24 80 [97; 127; 120])).
  vm_compute. reflexivity.
Defined.

(** ** When [run] raises nothing *)

Lemma Qdiv_nonzero (a b : Q) : ~ (a == 0)%Q -> ~ (b == 0)%Q -> ~ (a / b == 0)%Q.
Proof.
  intros Ha Hb H. apply Ha.
  assert (E : (a == a / b * b)%Q) by (field; exact Hb).
  rewrite E, H. ring.
Qed.

Lemma inject_Z_nonzero (z : Z) : z <> 0 -> ~ (inject_Z z == 0)%Q.
Proof. intros H E. apply H. now apply inject_Z_zero. Qed.

Lemma draw_header_running (s : TypingExercise) (w : World) :
  running s w ->
  exists h, draw_header s w = Ok (h, snd (time_time w)).
Proof.
  intros (Hwf & Htot & (Hpos & Hinc) & tick0 & Hst & Htick).
  unfold draw_header.
  rewrite truediv_ok by (apply inject_Z_nonzero; lia). cbn [bind].
  unfold elapsed_since. rewrite Hst.
  destruct (Qeq_bool (clock w tick0) 0) eqn:E.
  { apply Qeq_bool_iff in E. specialize (Hpos tick0). rewrite E in Hpos.
    now apply Qlt_irrefl in Hpos. }
  cbn [time_time snd]. 
  assert (Hel : ~ (clock w (ticks w) - clock w tick0 == 0)%Q).
  { intros H0. specialize (Hinc _ _ Htick).
    assert (clock w (ticks w) == clock w tick0)%Q as Heq
      by (rewrite <- (Qplus_0_l (clock w tick0)), <- H0; ring).
    rewrite Heq in Hinc. now apply Qlt_irrefl in Hinc. }
  unfold header_stats.
  destruct (Z.gtb_spec (current_pos s) 0) as [Hp|]; [|cbn; eauto].
  rewrite (truediv_ok _ 5) by discriminate. cbn [bind].
  rewrite (truediv_ok _ 60) by discriminate. cbn [bind].
  rewrite truediv_ok by (apply Qdiv_nonzero; [exact Hel|discriminate]).
  cbn [bind].
  rewrite truediv_ok by (apply inject_Z_nonzero; lia). cbn. eauto.
Qed.

Lemma redraw_running (s : TypingExercise) (w : World) :
  running s w ->
  exists w', redraw s w = Ok w'
             /\ same_io w w' /\ ticks w' = S (ticks w).
Proof.
  intros Hrun. destruct (draw_header_running s w Hrun) as (h & Hh).
  destruct Hrun as (Hwf & _).
  unfold redraw. rewrite Hh. cbn [bind].
  destruct (draw_text_cells s (snd (time_time w)) Hwf) as (cells & -> & _).
  cbn [bind]. eexists. split; [reflexivity|]. cbn. repeat split.
Qed.

Lemma running_next (s s' : TypingExercise) (w w' : World) :
  running s w -> wf_session s' -> same_exercise s s' ->
  clock w' = clock w -> (ticks w <= ticks w')%nat ->
  running s' w'.
Proof.
  intros (Hwf & Htot & (Hpos & Hinc) & tick0 & Hst & Htick) Hwf' Hsame Hc Ht.
  destruct Hsame as (_ & _ & _ & Etc & Est & _).
  split; [exact Hwf'|]. split; [lia|]. split.
  - split; intros; rewrite Hc; auto.
  - exists tick0. rewrite Hc, Est. split; [exact Hst|lia].
Qed.

(** One iteration of the loop in a running session whose next key, if there
    is one, is a code point: it raises nothing, and the session goes on
    running. *)
Lemma loop_iter_running (s : TypingExercise) (w : World) :
  running s w ->
  (current_pos s < total_chars s ->
   forall key rest, keys w = key :: rest -> code_point key) ->
  match loop_iter s w with
  | Next s' w' => running s' w'
  | Stop (Raised _) => False
  | Stop OutOfFuel => False
  | Stop _ => True
  end.
Proof.
  intros Hrun Hkeys. pose proof Hrun as (Hwf & Htot & Hclk & Hstart).
  pose proof Hwf as (Ht & Hp & Hi & Htl & Hcp & Hu & Hpos).
  unfold loop_iter.
  destruct (Z.ltb_spec (current_pos s) (total_chars s)) as [Hlt|];
    [|unfold finish; destruct (time_time w); exact I].
  destruct (current_range s Hwf) as (a & e & Hidx & _ & _ & _).
  rewrite Hidx. destruct (current_pos s >=? e).
  - destruct (Z.ltb_spec (current_page s) (total_pages s - 1)) as [Hlast|];
      [|unfold finish; destruct (time_time w); exact I].
    set (s1 := set_current_page s (current_page s + 1)).
    assert (Hwf1 : wf_session s1).
    { unfold wf_session, s1. cbn. repeat split; auto; lia. }
    assert (Hrun1 : running s1 w).
    { eapply running_next; eauto. repeat split. }
    destruct (redraw_running s1 w Hrun1) as (w1 & -> & Hio & Htk).
    eapply running_next; eauto; [repeat split|apply Hio|lia].
  - destruct (getch w) as [[key w1]|] eqn:Hg; [|exact I].
    apply getch_keys in Hg. destruct Hg as (Hk & _ & _ & Hc & _ & Htk).
    specialize (Hkeys Hlt _ _ Hk).
    destruct (key =? 27); [destruct (time_time w1); exact I|].
    destruct (handle_key s key) as [s1|e1] eqn:Hh.
    + pose proof (handle_key_wf _ _ _ Hwf Hh) as Hwf1.
      pose proof (handle_key_same_exercise _ _ _ Hh) as Hsame.
      assert (Hrun1 : running s1 w1).
      { eapply running_next; eauto. lia. }
      destruct (redraw_running s1 w1 Hrun1) as (w2 & -> & Hio & Htk2).
      eapply running_next; eauto; [apply same_exercise_refl|apply Hio|lia].
    + destruct (handle_key_raises _ _ _ Hwf Hlt Hh) as (_ & Hbad).
      apply Hbad. exact Hkeys.
Qed.

Lemma loop_running (fuel : nat) :
  forall (s : TypingExercise) (w : World) (e : exn),
    running s w -> Forall code_point (keys w) -> loop fuel s w <> Raised e.
Proof.
  induction fuel as [|fuel IH]; intros s w e Hrun Hkeys; [discriminate|].
  cbn [loop].
  assert (Hhead : current_pos s < total_chars s ->
                  forall key rest, keys w = key :: rest -> code_point key).
  { intros _ key rest E. rewrite E in Hkeys. now inversion Hkeys. }
  pose proof (loop_iter_running s w Hrun Hhead) as Hstep.
  destruct (loop_iter s w) as [s1 w1|o] eqn:E.
  - apply IH; [exact Hstep|]. apply loop_iter_next, iteration_keys in E.
    eapply incl_Forall; eauto.
  - destruct o; try contradiction; discriminate.
Qed.

(** With a clock that advances, a window of some width and a text that is
    not empty, the first screen is drawn and the session runs. *)
Lemma run_setup_running (name : string) (ls : list str) (w : World) :
  advancing_clock w -> snd (maxyx w) <> 0 -> join ls <> [] ->
  exists s0 w0,
    run_setup (init name ls) w = Ok (s0, w0)
    /\ running s0 w0 /\ keys w0 = keys w
    /\ stdout w0 = stdout w /\ records w0 = records w
    /\ clock w0 = clock w /\ maxyx w0 = maxyx w.
Proof.
  intros Hclk Hwidth Hne. unfold run_setup, time_time. cbn [maxyx].
  destruct (maxyx w) as [height width] eqn:Em. cbn [snd] in Hwidth.
  cbn [lines init set_start_time page_indices].
  set (p0 := {| pg_pages := []; pg_page_indices := [];
                pg_current_page := []; pg_current_chars := 0;
                pg_line_count := 0; pg_total_lines := 0 |}).
  assert (H0 : pager_inv [] p0).
  { unfold pager_inv, p0; cbn. repeat split; constructor. }
  destruct (paginate_lines_inv width (Z.max 1 (height - 7)) Hwidth ls [] p0 H0)
    as (p & E & _).
  assert (Hp : exists pgs idx,
             paginate ls width (Z.max 1 (height - 7)) [] = Ok (pgs, idx)).
  { unfold paginate. fold p0. rewrite E. cbn [bind].
    destruct (paginate_flush p). eauto. }
  destruct Hp as (pgs & idx & Hp). rewrite Hp. cbn [bind].
  set (t := clock w (ticks w)).
  set (w1 := {| keys := keys w; clock := clock w; ticks := S (ticks w);
                maxyx := (height, width); screen := screen w;
                stdout := stdout w; records := records w |}).
  set (s2 := set_paging _ _ _ _).
  assert (Hlen : len (join ls) <> 0).
  { unfold len. destruct (join ls); [congruence|]. cbn. lia. }
  assert (Hwf : wf_session s2) by (eapply paged_wf; eauto).
  assert (Hrun : running s2 w1).
  { unfold running. split; [exact Hwf|]. split.
    - cbn. pose proof (len_nonneg (join ls)). lia.
    - split; [exact Hclk|]. exists (ticks w). cbn. split; [reflexivity|lia]. }
  destruct (redraw_running s2 w1 Hrun) as (w2 & -> & Hio & Htk).
  cbn [bind]. exists s2, w2. split; [reflexivity|].
  split.
  - eapply running_next; eauto; [apply same_exercise_refl|apply Hio|lia].
  - unfold same_io in Hio. cbn in Hio. intuition.
Qed.

Lemma terminal_advancing (height width : Z) (input : list Z) :
  advancing_clock (terminal height width input).
Proof.
  split; cbn [clock terminal].
  - intros n. unfold Qlt, Qplus, inject_Z. cbn [Qnum Qden]. lia.
  - intros n m Hnm. unfold Qlt, Qplus, inject_Z. cbn [Qnum Qden]. lia.
Qed.



(** ** The record of a completed session *)

Lemma save_record_ok (s : TypingExercise) (w : World) (t0 t1 : Q) :
  start_time s = Some t0 -> end_time s = Some t1 -> ~ (t1 == t0)%Q ->
  exists (r : SessionRecord) (w' : World),
    save_record s w = Ok (r, w')
    /\ records w' = records w ++ [r]
    /\ keys w' = keys w /\ stdout w' = stdout w /\ screen w' = screen w
    /\ rec_exercise r = exercise_name s
    /\ rec_duration r = (t1 - t0)%Q
    /\ rec_total_chars r = total_chars s
    /\ rec_correct_chars r = correct_chars s
    /\ rec_wrong_chars r = wrong_chars s
    /\ rec_accuracy r =
         (if total_chars s >? 0
          then inject_Z (correct_chars s) / inject_Z (total_chars s) * 100
          else 0)%Q
    /\ rec_speed_wpm r = (inject_Z (total_chars s) / 5 / ((t1 - t0) / 60))%Q.
Proof.
  intros Hs He Hne. unfold save_record. cbn [time_time]. rewrite Hs, He.
  assert (Hd : ~ ((t1 - t0) / 60 == 0)%Q).
  { apply Qdiv_nonzero; [|discriminate]. intros H0. apply Hne.
    rewrite <- (Qplus_0_l t0), <- H0. ring. }
  destruct (Z.gtb_spec (total_chars s) 0) as [Hpos|Hz].
  - rewrite truediv_ok by (apply inject_Z_nonzero; lia). cbn [bind].
    rewrite (truediv_ok _ 5) by discriminate. cbn [bind].
    rewrite (truediv_ok _ 60) by discriminate. cbn [bind].
    rewrite truediv_ok by exact Hd. cbn [bind].
    do 2 eexists. split; [reflexivity|]. cbn. repeat split.
  - cbn [bind].
    rewrite (truediv_ok _ 5) by discriminate. cbn [bind].
    rewrite (truediv_ok _ 60) by discriminate. cbn [bind].
    rewrite truediv_ok by exact Hd. cbn [bind].
    do 2 eexists. split; [reflexivity|]. cbn. repeat split.
Qed.

(** ** Typing a whole text *)

Lemma count_correct_snoc (typed : str) :
  forall (reference : str) (c e : Z),
    nth_error reference (List.length typed) = Some e ->
    count_correct (typed ++ [c]) reference
    = count_correct typed reference + (if c =? e then 1 else 0).
Proof.
  induction typed as [|t typed IH]; intros reference c e Hn.
  - destruct reference as [|r reference]; [discriminate|].
    cbn in Hn. injection Hn as ->. cbn.
    destruct reference; destruct (c =? e); reflexivity.
  - destruct reference as [|r reference]; [discriminate|].
    cbn in Hn. cbn [app count_correct]. rewrite (IH _ _ _ Hn). lia.
Qed.

Lemma count_correct_same (t : str) : count_correct t t = len t.
Proof.
  induction t as [|c t IH]; [reflexivity|].
  cbn [count_correct]. rewrite Z.eqb_refl, IH. unfold len. cbn [List.length].
  lia.
Qed.

Lemma count_correct_bounds (typed reference : str) :
  0 <= count_correct typed reference <= len typed.
Proof.
  revert reference. induction typed as [|c typed IH]; intros reference.
  - cbn. unfold len. cbn. lia.
  - destruct reference as [|e reference].
    + cbn. pose proof (len_nonneg (c :: typed)). lia.
    + cbn [count_correct]. specialize (IH reference).
      unfold len in *. cbn [List.length]. destruct (c =? e); lia.
Qed.

Lemma handle_typed_key (s : TypingExercise) (key : Z) :
  typed_key key -> handle_key s key = type_char s key.
Proof.
  intros (Hcp & _ & Hbs & Hdel). unfold handle_key, chr, code_point in *.
  destruct (Z.eqb_spec key KEY_BACKSPACE); [contradiction|].
  destruct (Z.eqb_spec key 127); [contradiction|]. cbn [orb].
  destruct (Z.leb_spec 0 key); [|lia].
  destruct (Z.leb_spec key 1114111); [|lia]. reflexivity.
Qed.

Section TypingAll.

Variables (ks rest : list Z).
Hypothesis ks_typed : Forall typed_key ks.

Lemma typing_remaining (s : TypingExercise) (w : World) (remaining : list Z) :
  typing ks rest s w -> ks = user_input s ++ remaining ->
  len remaining = total_chars s - current_pos s.
Proof.
  intros (Hrun & Hlen & _) Hks.
  destruct Hrun as ((_ & _ & _ & _ & _ & Hu & _) & _).
  rewrite Hks, len_app in Hlen. lia.
Qed.

Lemma typing_next_key (s : TypingExercise) (w : World) :
  typing ks rest s w ->
  current_pos s < total_chars s ->
  exists key rest', keys w = key :: rest' /\ typed_key key.
Proof.
  intros Hty Hlt.
  pose proof Hty as (_ & _ & _ & _ & remaining & Hks & Hkeys).
  pose proof (typing_remaining _ _ _ Hty Hks) as Hlen.
  destruct remaining as [|k remaining].
  { unfold len in Hlen. cbn in Hlen. lia. }
  exists k, (remaining ++ rest). split; [exact Hkeys|].
  rewrite Forall_forall in ks_typed. apply ks_typed.
  rewrite Hks. apply in_or_app. right. now left.
Qed.

Lemma typing_step (s s' : TypingExercise) (w w' : World) :
  typing ks rest s w -> iteration s w s' w' -> running s' w' ->
  typing ks rest s' w'.
Proof.
  intros Hty Hit Hrun'.
  pose proof Hty as (Hrun & Hlen & Hc & Hw & remaining & Hks & Hkeys).
  pose proof Hrun as ((Ht & _ & _ & _ & _ & Hu & _) & _).
  destruct Hit as [w1 a e Hlt Hidx Hge Hp Hr
                  |key w0 w1 s1 a e Hlt Hidx Hin Hg Hk Hh Hr].
  - apply redraw_same_io in Hr. destruct Hr as (Hr & _).
    split; [exact Hrun'|]. cbn. repeat split; auto.
    exists remaining. rewrite Hr. auto.
  - apply redraw_same_io in Hr. destruct Hr as (Hr & _).
    apply getch_keys in Hg. destruct Hg as (Hg & _).
    destruct (typing_next_key _ _ Hty Hlt) as (k & rest' & Hk' & Hkey).
    rewrite Hg in Hk'. injection Hk' as <- <-.
    rewrite (handle_typed_key _ _ Hkey) in Hh.
    destruct (type_char_in_text s key)
      as (expected & s2 & Hnth & Htc & Hc2 & Hw2 & Hu2 & Hp2).
    { pose proof (len_nonneg (user_input s)). lia. }
    rewrite Hh in Htc. injection Htc as <-.
    pose proof (type_char_fields _ _ _ Hh)
      as (_ & _ & _ & _ & _ & _ & _ & _ & Etx & Etc & _).
    destruct remaining as [|k remaining].
    { pose proof (typing_remaining _ _ _ Hty Hks) as Hl.
      unfold len in Hl. cbn in Hl. lia. }
    rewrite Hkeys in Hg. cbn in Hg. injection Hg as <- Hg.
    split; [exact Hrun'|]. rewrite Etc, Etx, Hu2, Hp2, Hc2, Hw2.
    split; [exact Hlen|]. split; [|split].
    + rewrite (count_correct_snoc _ _ _ expected).
      * destruct (k =? expected); lia.
      * rewrite <- Hnth. f_equal. unfold len in Hu. lia.
    + destruct (k =? expected); lia.
    + exists remaining. rewrite Hr, <- Hg, Hks, <- app_assoc. auto.
Qed.

Lemma typing_loop (fuel : nat) :
  forall (s : TypingExercise) (w : World),
    (loop_fuel s w <= fuel)%nat -> typing ks rest s w ->
    exists (s' : TypingExercise) (w' : World) (t0 t1 : Q),
      loop fuel s w = Returned true s' w'
      /\ user_input s' = ks /\ keys w' = rest
      /\ correct_chars s' = count_correct ks (text s)
      /\ wrong_chars s' = len ks - count_correct ks (text s)
      /\ total_chars s' = total_chars s
      /\ exercise_name s' = exercise_name s
      /\ start_time s' = Some t0 /\ end_time s' = Some t1 /\ (t0 < t1)%Q
      /\ stdout w' = stdout w /\ records w' = records w.
Proof.
  induction fuel as [|fuel IH]; intros s w Hfuel Hty.
  { unfold loop_fuel in Hfuel. lia. }
  pose proof Hty as (Hrun & Hlen & Hc & Hw & remaining & Hks & Hkeys).
  pose proof (typing_remaining _ _ _ Hty Hks) as Hrem.
  assert (Hhead : current_pos s < total_chars s ->
                  forall key rest', keys w = key :: rest' -> code_point key).
  { intros Hlt key rest' Hk.
    destruct (typing_next_key _ _ Hty Hlt) as (k & r' & Hk' & Hkey & _).
    congruence. }
  pose proof (loop_iter_running s w Hrun Hhead) as Hstep.
  cbn [loop]. destruct (loop_iter s w) as [s1 w1|o] eqn:E.
  - apply loop_iter_next in E.
    pose proof (typing_step _ _ _ _ Hty E Hstep) as Hty1.
    pose proof (iteration_fuel _ _ _ _ E) as Hf.
    destruct (IH s1 w1 ltac:(lia) Hty1)
      as (s' & w' & t0 & t1 & Hl & Hu' & Hk' & Hc' & Hw' & Htc & Hn & Hst
          & Het & Hlt & Hso & Hre).
    pose proof (iteration_same_exercise _ _ _ _ E)
      as (En & _ & Etx & Etc & _).
    pose proof (iteration_same_io _ _ _ _ E) as (Hso1 & Hre1 & _).
    exists s', w', t0, t1. rewrite <- Etx, <- Etc, <- En, <- Hso1, <- Hre1.
    auto 15.
  - destruct o as [[|] s' w'|e|s' w'|]; try contradiction.
    + pose proof Hrun as (Hwf & _ & (_ & Hinc) & tick0 & Hst0 & Htick).
      destruct (loop_iter_completed _ _ _ _ Hwf E)
        as (-> & Hpos & Hk' & Hso & Hre).
      assert (remaining = []).
      { destruct remaining; [reflexivity|]. unfold len in Hrem.
        cbn in Hrem. lia. }
      subst remaining. rewrite app_nil_r in Hks. cbn [app] in Hkeys.
      exists (set_end_time s (Some (clock w (ticks w)))), w',
        (clock w tick0), (clock w (ticks w)).
      cbn. rewrite <- Hks. repeat split; auto; try congruence; lia.
    + destruct (loop_iter_cancelled _ _ _ _ E) as (_ & Hlt & Hk').
      destruct (typing_next_key _ _ Hty Hlt) as (k & r' & Hk'' & _ & Hne & _).
      congruence.
    + destruct (loop_iter_waiting _ _ _ _ E) as (_ & _ & Hk' & Hlt).
      destruct (typing_next_key _ _ Hty Hlt) as (k & r' & Hk'' & _).
      congruence.
Qed.

End TypingAll.

Lemma run_typing (name : string) (ls : list str) (w : World)
  (ks rest : list Z) :
  advancing_clock w -> snd (maxyx w) <> 0 -> join ls <> [] ->
  Forall typed_key ks -> len ks = len (join ls) -> keys w = ks ++ rest ->
  exists (s : TypingExercise) (w' : World) (t0 t1 : Q),
    run (init name ls) w = Returned true s w'
    /\ user_input s = ks /\ keys w' = rest
    /\ correct_chars s = count_correct ks (join ls)
    /\ wrong_chars s = len ks - count_correct ks (join ls)
    /\ total_chars s = len (join ls)
    /\ exercise_name s = name
    /\ start_time s = Some t0 /\ end_time s = Some t1 /\ (t0 < t1)%Q
    /\ stdout w' = stdout w /\ records w' = records w.
Proof.
  intros Hclk Hwidth Hne Hks Hlen Hkeys.
  destruct (run_setup_running name ls w Hclk Hwidth Hne)
    as (s0 & w0 & Hs & Hrun & Hk & Hso & Hre & _).
  pose proof (run_setup_wf _ _ _ _ _ Hs)
    as (Hwf & Htx & _ & Hpos & Hu & Hc & Hw & _).
  pose proof Hwf as (Ht & _).
  assert (Hn : exercise_name s0 = name).
  { clear - Hs. unfold run_setup, time_time in Hs. cbn [maxyx] in Hs.
    destruct (maxyx w). apply bind_ok in Hs. destruct Hs as ([? ?] & _ & Hs).
    apply bind_ok in Hs. destruct Hs as (? & _ & Hs). now injection Hs as <- _. }
  assert (Hty : typing ks rest s0 w0).
  { split; [exact Hrun|]. rewrite Ht, Htx, Hu, Hc, Hw, Hpos.
    repeat split; auto. exists ks. rewrite Hk. auto. }
  destruct (typing_loop ks rest Hks (loop_fuel s0 w0) s0 w0 (le_n _) Hty)
    as (s & w' & t0 & t1 & Hl & Hrest).
  exists s, w', t0, t1. unfold run. rewrite Hs, Hl.
  rewrite Htx, Ht, Htx, Hn, Hso, Hre in Hrest. intuition.
Qed.





(** ** Pages are made of whole lines *)

Section GroupedPages.

Variables width rows : Z.
Hypothesis width_positive : 0 < width.

Lemma rows_needed_positive (line : str) : 1 <= rows_needed width line.
Proof.
  unfold rows_needed. pose proof (len_nonneg (rstrip_nl line)) as Hn.
  assert (0 <= (len (rstrip_nl line) + width - 1) / width)
    by (apply Z.div_pos; lia).
  destruct (Z.eqb_spec ((len (rstrip_nl line) + width - 1) / width) 0); lia.
Qed.

Lemma rows_of_app (p1 p2 : list str) :
  rows_of width (p1 ++ p2) = rows_of width p1 + rows_of width p2.
Proof.
  unfold rows_of. induction p1 as [|l p1 IH]; cbn [app fold_right];
    [reflexivity|].
  rewrite IH. lia.
Qed.

Lemma rows_of_positive (page : list str) :
  page <> [] -> 1 <= rows_of width page.
Proof.
  destruct page as [|l page]; [congruence|]. intros _.
  pose proof (rows_needed_positive l).
  assert (0 <= rows_of width page).
  { unfold rows_of. induction page as [|l' page IH]; cbn [fold_right]; [lia|].
    pose proof (rows_needed_positive l'). lia. }
  unfold rows_of in *. cbn [fold_right]. lia.
Qed.

Lemma pages_full_close (groups : list (list str)) (page : list str)
  (line : str) :
  pages_full width rows (groups ++ [page]) ->
  rows < rows_of width page + rows_needed width line ->
  pages_full width rows ((groups ++ [page]) ++ [[line]]).
Proof.
  intros Hfull Hlast i g l more H1 H2.
  assert (Hlen : List.length (groups ++ [page]) = S (List.length groups))
    by (rewrite length_app; cbn; lia).
  destruct (Nat.lt_ge_cases (S i) (List.length (groups ++ [page]))) as [Hi|Hi].
  - rewrite nth_error_app1 in H1 by lia. rewrite nth_error_app1 in H2 by lia.
    eapply Hfull; eauto.
  - destruct (Nat.eq_dec (S i) (List.length (groups ++ [page]))) as [He|Hn].
    + rewrite nth_error_app1 in H1 by lia.
      rewrite nth_error_app2 in H2 by lia.
      rewrite He, Nat.sub_diag in H2. cbn in H2. injection H2 as <- <-.
      rewrite nth_error_app2 in H1 by lia.
      replace (i - List.length groups)%nat with O in H1 by lia.
      cbn in H1. injection H1 as <-. exact Hlast.
    + assert (nth_error ((groups ++ [page]) ++ [[line]]) (S i) = None).
      { apply nth_error_None. rewrite length_app. cbn. lia. }
      congruence.
Qed.

Lemma pages_full_grow (groups : list (list str)) (page : list str)
  (line : str) :
  pages_full width rows (groups ++ [page]) ->
  (page = [] -> groups = []) ->
  pages_full width rows (groups ++ [page ++ [line]]).
Proof.
  intros Hfull Hempty i g l more H1 H2.
  destruct (Nat.lt_ge_cases (S i) (List.length groups)) as [Hi|Hi].
  - rewrite nth_error_app1 in H1 by lia. rewrite nth_error_app1 in H2 by lia.
    apply (Hfull i g l more); rewrite nth_error_app1 by lia; assumption.
  - destruct (Nat.eq_dec (S i) (List.length groups)) as [He|Hn].
    + rewrite nth_error_app1 in H1 by lia.
      rewrite nth_error_app2 in H2 by lia.
      rewrite He, Nat.sub_diag in H2. cbn in H2. injection H2 as H2.
      destruct page as [|l0 page'].
      * rewrite (Hempty eq_refl) in He. discriminate.
      * cbn in H2. injection H2 as <- <-.
        apply (Hfull i g l0 page').
        -- rewrite nth_error_app1 by lia. assumption.
        -- rewrite nth_error_app2 by lia. rewrite He, Nat.sub_diag.
           reflexivity.
    + assert (nth_error (groups ++ [page ++ [line]]) (S i) = None).
      { apply nth_error_None. rewrite length_app. cbn. lia. }
      congruence.
Qed.

Lemma paginate_line_rows (p : Pager) (line : str) :
  paginate_line width rows p line =
  let n := rows_needed width line in
  if (pg_line_count p + n >? rows) && (pg_line_count p >? 0)
  then Ok {| pg_pages := pg_pages p ++ [join (pg_current_page p)];
             pg_page_indices :=
               pg_page_indices p
                 ++ [(pg_current_chars p - len (join (pg_current_page p)),
                      pg_current_chars p)];
             pg_current_page := [line];
             pg_current_chars := pg_current_chars p + len line;
             pg_line_count := n;
             pg_total_lines := pg_total_lines p + n |}
  else Ok {| pg_pages := pg_pages p;
             pg_page_indices := pg_page_indices p;
             pg_current_page := pg_current_page p ++ [line];
             pg_current_chars := pg_current_chars p + len line;
             pg_line_count := pg_line_count p + n;
             pg_total_lines := pg_total_lines p + n |}.
Proof.
  unfold paginate_line, floordiv, rows_needed.
  destruct (Z.eqb_spec width 0); [lia|]. reflexivity.
Qed.

Lemma paginate_line_groups (read : list str) (p : Pager) (line : str)
  (groups : list (list str)) :
  pager_groups width rows read p groups ->
  exists p' groups',
    paginate_line width rows p line = Ok p'
    /\ pager_groups width rows (read ++ [line]) p' groups'.
Proof.
  intros (Hpg & Hcat & Hne & Hfit & Hcount & Hempty & Hcur & Hfull).
  rewrite paginate_line_rows. cbn zeta.
  pose proof (rows_needed_positive line) as Hn.
  destruct (Z.gtb_spec (pg_line_count p + rows_needed width line) rows)
    as [Hover|Hin];
    [destruct (Z.gtb_spec (pg_line_count p) 0) as [Hsome|Hnone]|];
    cbn [andb].
  - assert (Hcne : pg_current_page p <> []).
    { intros E. rewrite E in Hcount. cbn in Hcount. lia. }
    eexists. exists (groups ++ [pg_current_page p]).
    split; [reflexivity|]. unfold pager_groups. cbn.
    split; [rewrite map_app, Hpg; reflexivity|].
    split.
    { rewrite concat_app. cbn. rewrite app_nil_r, Hcat. reflexivity. }
    split; [apply Forall_app; split; [exact Hne|constructor; auto]|].
    split.
    { apply Forall_app. split; [exact Hfit|]. constructor; auto.
      destruct Hcur; [contradiction|assumption]. }
    split; [lia|]. split; [discriminate|].
    split; [right; left; reflexivity|].
    apply pages_full_close; [exact Hfull|]. rewrite <- Hcount. lia.
  - assert (Hce : pg_current_page p = []).
    { destruct (pg_current_page p) as [|l0 c] eqn:E; [reflexivity|].
      assert (Hlc : l0 :: c <> []) by discriminate.
      pose proof (rows_of_positive (l0 :: c) Hlc). lia. }
    eexists. exists groups. split; [reflexivity|].
    unfold pager_groups. cbn. rewrite Hce in *. cbn [app].
    rewrite app_nil_r in Hcat.
    split; [exact Hpg|]. split; [rewrite Hcat; reflexivity|].
    split; [exact Hne|]. split; [exact Hfit|].
    split; [rewrite Hcount; cbn; lia|]. split; [discriminate|].
    split; [right; left; reflexivity|].
    apply (pages_full_grow groups [] line Hfull Hempty).
  - eexists. exists groups. split; [reflexivity|].
    unfold pager_groups.
    cbn [pg_pages pg_page_indices pg_current_page pg_current_chars
         pg_line_count pg_total_lines].
    assert (Hone : rows_of width [line] = rows_needed width line)
      by (cbn; lia).
    split; [exact Hpg|]. split; [rewrite app_assoc, Hcat; reflexivity|].
    split; [exact Hne|]. split; [exact Hfit|].
    split; [rewrite rows_of_app, Hcount, Hone; reflexivity|].
    split; [intros E; destruct (pg_current_page p); discriminate|].
    split; [right; right; rewrite rows_of_app, <- Hcount, Hone; lia|].
    apply pages_full_grow; assumption.
Qed.

Lemma paginate_lines_groups (ls : list str) :
  forall (read : list str) (p : Pager) (groups : list (list str)),
    pager_groups width rows read p groups ->
    exists p' groups',
      paginate_lines width rows p ls = Ok p'
      /\ pager_groups width rows (read ++ ls) p' groups'.
Proof.
  induction ls as [|line ls IH]; intros read p groups Hg.
  - exists p, groups. cbn. rewrite app_nil_r. auto.
  - destruct (paginate_line_groups read p line groups Hg)
      as (p1 & g1 & E1 & Hg1).
    destruct (IH _ _ _ Hg1) as (p2 & g2 & E2 & Hg2).
    exists p2, g2. cbn [paginate_lines]. rewrite E1. cbn [bind].
    split; [exact E2|]. now rewrite <- app_assoc in Hg2.
Qed.

End GroupedPages.

Lemma paginate_groups (ls : list str) (width rows : Z) :
  0 < width ->
  exists (groups : list (list str)) (idx : list (Z * Z)),
    paginate ls width rows [] = Ok (map join groups, idx)
    /\ concat groups = ls
    /\ Forall (fun g => g <> []) groups
    /\ Forall (page_fits width rows) groups
    /\ pages_full width rows groups.
Proof.
  intros Hw. unfold paginate.
  set (p0 := {| pg_pages := []; pg_page_indices := [];
                pg_current_page := []; pg_current_chars := 0;
                pg_line_count := 0; pg_total_lines := 0 |}).
  assert (H0 : pager_groups width rows [] p0 []).
  { unfold pager_groups, p0. cbn. repeat split; auto.
    intros i g l more H1 H2. destruct i; discriminate. }
  destruct (paginate_lines_groups width rows Hw ls [] p0 [] H0)
    as (p & groups & E & Hg).
  rewrite E. cbn [bind app] in *.
  destruct Hg as (Hpg & Hcat & Hne & Hfit & Hcount & Hempty & Hcur & Hfull).
  unfold paginate_flush. destruct (pg_current_page p) as [|l0 c] eqn:Ec.
  - exists groups. eexists. rewrite Hpg. split; [reflexivity|].
    rewrite app_nil_r in Hcat. rewrite (Hempty eq_refl) in *.
    repeat split; auto. intros i g l more H1 H2. destruct i; discriminate.
  - exists (groups ++ [l0 :: c]). eexists. rewrite Hpg, map_app.
    split; [reflexivity|]. rewrite concat_app. cbn [concat].
    rewrite app_nil_r. split; [exact Hcat|].
    split; [apply Forall_app; split; [exact Hne|constructor; [discriminate|auto]]|].
    split; [|exact Hfull].
    apply Forall_app. split; [exact Hfit|]. constructor; [|auto].
    destruct Hcur; [discriminate|assumption].
Qed.

(** X9. In a window of positive width, the pages are groups of whole lines,
    in order: no page is empty, no line is cut between two pages; a page of
    more than one line stays within the rows of the viewport (a line that
    needs more rows than the viewport has is a page by itself); and a page is
    closed only when the line that follows would not have fitted in it. *)
Theorem pages_hold_whole_lines (ls : list str) (width rows : Z) :
  0 < width ->
  exists (groups : list (list str)) (idx : list (Z * Z)),
    paginate ls width rows [] = Ok (map join groups, idx)
    /\ concat groups = ls
    /\ Forall (fun g => g <> []) groups
    /\ Forall (fun g => List.length g = 1%nat \/ rows_of width g <= rows)
         groups
    /\ (forall (i : nat) (page : list str) (line : str) (more : list str),
          nth_error groups i = Some page ->
          nth_error groups (S i) = Some (line :: more) ->
          rows < rows_of width page + rows_needed width line).
Proof. exact (paginate_groups ls width rows). Qed.

Lemma pages_hold_whole_lines_witness :
  exists (groups : list (list str)) (idx : list (Z * Z)),
    paginate [[97; 10]; [98; 99; 100; 10]; [10]; [101]] 2 3 []
      = Ok (map join groups, idx)
    /\ concat groups = [[97; 10]; [98; 99; 100; 10]; [10]; [101]]
    /\ Forall (fun g => g <> []) groups
    /\ Forall (fun g => List.length g = 1%nat \/ rows_of 2 g <= 3) groups
    /\ (forall (i : nat) (page : list str) (line : str) (more : list str),
          nth_error groups i = Some page ->
          nth_error groups (S i) = Some (line :: more) ->
          3 < rows_of 2 page + rows_needed 2 line).
Proof.
  apply (pages_hold_whole_lines [[97; 10]; [98; 99; 100; 10]; [10]; [101]] 2 3).
  lia.
Defined.

Lemma short_line_one_row (width : Z) (line : str) :
  0 < width -> len (rstrip_nl line) <= width -> rows_needed width line = 1.
Proof.
  intros Hw Hshort. unfold rows_needed.
  pose proof (len_nonneg (rstrip_nl line)) as Hn.
  destruct (Z.eq_dec (len (rstrip_nl line)) 0) as [E|E].
  - rewrite E. replace (0 + width - 1) with (width - 1) by lia.
    rewrite Z.div_small by lia. reflexivity.
  - assert (Hq : (len (rstrip_nl line) + width - 1) / width = 1).
    { symmetry. apply (Z.div_unique _ _ 1 (len (rstrip_nl line) - 1)); lia. }
    rewrite Hq. reflexivity.
Qed.

Lemma rows_of_short (width : Z) (page : list str) :
  Forall (fun l => rows_needed width l = 1) page ->
  rows_of width page = len page.
Proof.
  unfold rows_of, len. induction 1 as [|l page Hl _ IH]; [reflexivity|].
  cbn [fold_right List.length]. rewrite IH, Hl. lia.
Qed.

Lemma Forall_concat_in {A : Type} (P : A -> Prop) (groups : list (list A))
  (g : list A) :
  Forall P (concat groups) -> In g groups -> Forall P g.
Proof.
  induction groups as [|g0 groups IH]; intros H Hin; [contradiction|].
  cbn in H. apply Forall_app in H. destruct H as (H0 & H).
  destruct Hin as [->|Hin]; auto.
Qed.

(** X10. When no line is longer than the window is wide and the viewport has
    at least one row, every page but the last holds exactly as many lines as
    the viewport has rows, and the last holds at least one line and at most
    that many. *)
Theorem short_lines_fill_pages (ls : list str) (width rows : Z) :
  0 < width -> 1 <= rows ->
  Forall (fun line => len (rstrip_nl line) <= width) ls ->
  exists (groups : list (list str)) (idx : list (Z * Z)),
    paginate ls width rows [] = Ok (map join groups, idx)
    /\ concat groups = ls
    /\ (forall (i : nat) (page : list str),
          nth_error groups i = Some page ->
          1 <= len page <= rows
          /\ ((S i < List.length groups)%nat -> len page = rows)).
Proof.
  intros Hw Hrows Hshort.
  destruct (paginate_groups ls width rows Hw)
    as (groups & idx & Hp & Hcat & Hne & Hfit & Hfull).
  exists groups, idx. split; [exact Hp|]. split; [exact Hcat|].
  assert (Hone : Forall (fun l => rows_needed width l = 1) (concat groups)).
  { rewrite Hcat. eapply Forall_impl; [|exact Hshort].
    intros l Hl. now apply short_line_one_row. }
  intros i page Hi.
  pose proof (nth_error_In _ _ Hi) as Hin.
  pose proof (rows_of_short width page (Forall_concat_in _ _ _ Hone Hin))
    as Hrows_page.
  rewrite Forall_forall in Hne, Hfit.
  pose proof (Hne _ Hin) as Hnonempty. pose proof (Hfit _ Hin) as Hf.
  assert (Hlen : 1 <= len page).
  { destruct page; [congruence|]. unfold len. cbn. lia. }
  assert (Hle : len page <= rows).
  { destruct Hf as [H1|Hr]; [unfold len; lia|lia]. }
  split; [lia|]. intros Hnext.
  destruct (nth_error groups (S i)) as [next|] eqn:En;
    [|apply nth_error_None in En; lia].
  pose proof (nth_error_In _ _ En) as Hin'.
  destruct next as [|line more]; [now contradiction (Hne _ Hin')|].
  pose proof (Hfull i page line more Hi En) as Hover.
  assert (Hl : rows_needed width line = 1).
  { pose proof (Forall_concat_in _ _ _ Hone Hin') as Hall.
    now inversion Hall. }
  lia.
Qed.

Lemma short_lines_fill_pages_witness :
  exists (groups : list (list str)) (idx : list (Z * Z)),
    paginate [[97; 10]; [98; 10]; [99; 10]; [100; 10]; [101]] 80 2 []
      = Ok (map join groups, idx)
    /\ concat groups = [[97; 10]; [98; 10]; [99; 10]; [100; 10]; [101]]
    /\ (forall (i : nat) (page : list str),
          nth_error groups i = Some page ->
          1 <= len page <= 2
          /\ ((S i < List.length groups)%nat -> len page = 2)).
Proof.
  apply (short_lines_fill_pages
           [[97; 10]; [98; 10]; [99; 10]; [100; 10]; [101]] 80 2);
    try lia.
  repeat constructor; vm_compute; discriminate.
Defined.

(** ** What is drawn *)

(** X11. In every state the loop of [run] reaches, [draw_text] raises nothing
    whatever the size of the window, and every cell it writes is in the text
    area of the window: in rows 5 to [height - 2], in a column of the window;
    no line feed is written, and the colour pair is one of the five. *)
Theorem draw_text_stays_in_window
  (name : string) (ls : list str) (w w0 w1 w2 : World)
  (s0 s : TypingExercise) (n : nat) :
  run_setup (init name ls) w = Ok (s0, w0) ->
  iterations n s0 w0 = Some (s, w1) ->
  exists cells : list Cell,
    draw_text s w2 = Ok cells
    /\ Forall (cell_in_window (fst (maxyx w2)) (snd (maxyx w2))) cells.
Proof.
  intros Hs Hit. apply draw_text_cells.
  pose proof (run_setup_wf _ _ _ _ _ Hs) as (Hwf0 & _).
  eapply iterations_wf; eauto.
Qed.

Lemma draw_text_stays_in_window_witness :
  exists (s0 s : TypingExercise) (w0 w1 : World),
    run_setup (init "two" two_lines) (terminal 8 80 [97; 10; 127]) = Ok (s0, w0)
    /\ iterations 4 s0 w0 = Some (s, w1)
    /\ exists cells : list Cell,
         draw_text s (terminal 7 1 []) = Ok cells
         /\ Forall (cell_in_window (fst (maxyx (terminal 7 1 [])))
                      (snd (maxyx (terminal 7 1 [])))) cells.
Proof.
  do 4 eexists. split; [vm_compute; reflexivity|].
  split; [vm_compute; reflexivity|].
  eapply (draw_text_stays_in_window "two" two_lines
            (terminal 8 80 [97; 10; 127]) _ _ (terminal 7 1 []) _ _ 4);
    [vm_compute; reflexivity | vm_compute; reflexivity].
Defined.

Lemma header_stats_ok (s : TypingExercise) (elapsed : Q) :
  (0 < current_pos s -> ~ (elapsed == 0)%Q) ->
  exists stats, header_stats s elapsed = Ok stats.
Proof.
  intros Hel. unfold header_stats.
  destruct (Z.gtb_spec (current_pos s) 0) as [Hp|]; [|eauto].
  rewrite (truediv_ok _ 5) by discriminate. cbn [bind].
  rewrite (truediv_ok _ 60) by discriminate. cbn [bind].
  rewrite truediv_ok by (apply Qdiv_nonzero; [auto|discriminate]).
  cbn [bind].
  rewrite truediv_ok by (apply inject_Z_nonzero; lia). cbn. eauto.
Qed.


(** ** How [main] ends *)

Lemma print_all_same (dir : list (string * list str)) :
  forall w : World,
    let w' := fold_left (fun acc f => print acc ("  - " ++ fst f)%string)
                dir w in
    keys w' = keys w /\ records w' = records w /\ screen w' = screen w
    /\ ticks w' = ticks w
    /\ stdout w' = stdout w ++ map (fun f => ("  - " ++ fst f)%string) dir.
Proof.
  induction dir as [|f dir IH]; intros w; cbn.
  - rewrite app_nil_r. auto.
  - destruct (IH (print w ("  - " ++ fst f)%string)) as (Hk & Hr & Hs & Ht & Ho).
    cbn in *. rewrite Hk, Hr, Hs, Ht, Ho, <- app_assoc. auto.
Qed.

Lemma main_rejects
  (argv : list string) (dir : list (string * list str)) (w : World) :
  (List.length argv < 2)%nat
  \/ (exists name, nth_error argv 1 = Some name
                   /\ lookup_exercise name dir = None) ->
  exists w' : World,
    main argv dir w = Exit 1 w'
    /\ keys w' = keys w /\ records w' = records w
    /\ screen w' = screen w /\ ticks w' = ticks w
    /\ ((List.length argv < 2)%nat ->
        stdout w' =
          stdout w
            ++ ["Usage: python3 ttp <exercise_name>"%string;
                "Available exercises:"%string]
            ++ map (fun f => ("  - " ++ fst f)%string) dir)
    /\ (forall name, nth_error argv 1 = Some name ->
        stdout w' =
          stdout w
            ++ [("Error: Exercise file 'exercises/" ++ name
                 ++ ".txt' not found!")%string]).
Proof.
  intros [Hshort|(name & Hn & Hdir)]; unfold main.
  - set (w2 := print (print w "Usage: python3 ttp <exercise_name>")
                 "Available exercises:").
    destruct (print_all_same dir w2) as (Hk & Hr & Hs & Ht & Ho).
    cbn zeta in *.
    assert (Hw2 : keys w2 = keys w /\ records w2 = records w
                  /\ screen w2 = screen w /\ ticks w2 = ticks w
                  /\ stdout w2 = stdout w
                                   ++ ["Usage: python3 ttp <exercise_name>"%string;
                                       "Available exercises:"%string]).
    { unfold w2, print. cbn [keys records screen ticks stdout].
      rewrite <- app_assoc. repeat split. }
    destruct Hw2 as (Hk2 & Hr2 & Hs2 & Ht2 & Ho2).
    assert (Hend : exists w',
               Exit 1 (fold_left
                         (fun acc f => print acc ("  - " ++ fst f)%string)
                         dir w2) = Exit 1 w'
               /\ keys w' = keys w /\ records w' = records w
               /\ screen w' = screen w /\ ticks w' = ticks w
               /\ stdout w' =
                    stdout w
                      ++ ["Usage: python3 ttp <exercise_name>"%string;
                          "Available exercises:"%string]
                      ++ map (fun f => ("  - " ++ fst f)%string) dir).
    { eexists. split; [reflexivity|]. rewrite Hk, Hr, Hs, Ht, Ho, Ho2.
      rewrite <- app_assoc. repeat split; assumption. }
    destruct Hend as (w' & He & Hk' & Hr' & Hs' & Ht' & Ho').
    destruct argv as [|a0 [|a1 rest]]; [| |cbn in Hshort; lia];
      (exists w'; split; [exact He|]; repeat split; auto;
       intros name Hn; destruct name; discriminate).
  - destruct argv as [|a0 [|a1 rest]]; try discriminate.
    cbn [nth_error] in Hn. injection Hn as ->. rewrite Hdir.
    eexists. split; [reflexivity|]. unfold print.
    cbn [keys records screen ticks stdout]. repeat split.
    + intros H. cbn in H. lia.
    + intros n Hn. cbn [nth_error] in Hn. now injection Hn as <-.
Qed.



Lemma save_record_inv (s : TypingExercise) (w w' : World) (r : SessionRecord) :
  save_record s w = Ok (r, w') ->
  records w' = records w ++ [r]
  /\ stdout w' = stdout w /\ keys w' = keys w
  /\ rec_exercise r = exercise_name s
  /\ rec_total_chars r = total_chars s
  /\ rec_correct_chars r = correct_chars s
  /\ rec_wrong_chars r = wrong_chars s.
Proof.
  unfold save_record. cbn [time_time].
  destruct (end_time s) as [t1|]; [|discriminate].
  destruct (start_time s) as [t0|]; [|discriminate].
  intros H. apply bind_ok in H. destruct H as (acc & _ & H).
  apply bind_ok in H. destruct H as (a & _ & H).
  apply bind_ok in H. destruct H as (b & _ & H).
  apply bind_ok in H. destruct H as (sp & _ & H).
  injection H as <- <-. cbn. repeat split.
Qed.

(** X14. When [main] ends with an exit status, one of three things happened.
    Status 1: no exercise was named or found, and no record is written.
    Status 0 after a cancelled session: the input held an ESC, no record is
    written and the cancel message is the one line printed.  Status 0 after
    a completed session: exactly one record is added, for the exercise
    named, with the length of its text as [total_chars] and counters that
    add up to at least that; nothing is printed. *)
Theorem main_writes_a_record_only_when_completed
  (argv : list string) (dir : list (string * list str)) (w w' : World)
  (status : Z) :
  main argv dir w = Exit status w' ->
  (status = 1 /\ records w' = records w /\ keys w' = keys w
   /\ ((List.length argv < 2)%nat
       \/ exists name, nth_error argv 1 = Some name
                       /\ lookup_exercise name dir = None))
  \/ (status = 0 /\ records w' = records w /\ In 27 (keys w)
      /\ stdout w' = stdout w ++ [canceled_message])
  \/ (status = 0 /\ stdout w' = stdout w
      /\ exists (r : SessionRecord) (name : string) (ls : list str),
           records w' = records w ++ [r]
           /\ nth_error argv 1 = Some name
           /\ lookup_exercise name dir = Some ls
           /\ rec_exercise r = name
           /\ rec_total_chars r = len (join ls)
           /\ rec_total_chars r <= rec_correct_chars r + rec_wrong_chars r).
Proof.
  intros H.
  destruct (Nat.lt_ge_cases (List.length argv) 2) as [Hshort|Hlong].
  { destruct (main_rejects argv dir w (or_introl Hshort))
      as (w1 & Hm & Hk & Hr & _).
    rewrite Hm in H. injection H as <- <-. left. auto. }
  destruct argv as [|a0 [|name more]]; try (cbn in Hlong; lia).
  destruct (lookup_exercise name dir) as [ls|] eqn:Hdir.
  2:{ destruct (main_rejects (a0 :: name :: more) dir w)
        as (w1 & Hm & Hk & Hr & _).
      { right. exists name. auto. }
      rewrite Hm in H. injection H as <- <-. left. repeat split; auto.
      right. exists name. auto. }
  right. unfold main in H. rewrite Hdir in H.
  destruct (run (init name ls) w) as [[|] s w1|e|s w1|] eqn:Hrun;
    try discriminate.
  - right.
    destruct (save_record s w1) as [[r w2]|e] eqn:Hsave; [|discriminate].
    destruct (show_results w2 r) as [w3|] eqn:Hshow; [|discriminate].
    injection H as <- <-.
    destruct (run_stops _ _ _ _ Hrun)
      as (s0 & s1 & w0 & w1' & n & Hs & Hit & Hst); [discriminate|].
    destruct (run_trace _ _ _ _ _ _ _ _ Hs Hit)
      as (Hwf & Htot & _ & consumed & Hk & Hno & Hsum & Hle).
    destruct (loop_iter_completed _ _ _ _ Hwf Hst)
      as (-> & Hpos & Hkeys & Hso1 & Hre1).
    destruct (iterations_same_io _ _ _ _ _ Hit) as (Hso & Hre & _).
    pose proof (iterations_same_exercise _ _ _ _ _ Hit) as (Hname & _).
    assert (Hn0 : exercise_name s0 = name).
    { clear - Hs. unfold run_setup, time_time in Hs. cbn [maxyx] in Hs.
      destruct (maxyx w). apply bind_ok in Hs.
      destruct Hs as ([? ?] & _ & Hs). apply bind_ok in Hs.
      destruct Hs as (? & _ & Hs). now injection Hs as <- _. }
    apply run_setup_fields in Hs.
    destruct Hs as (_ & _ & _ & _ & _ & _ & _ & _ & _ & _ & Hso0 & Hre0 & _).
    destruct (save_record_inv _ _ _ _ Hsave)
      as (Hrec & Hso2 & _ & Hrn & Hrt & Hrc & Hrw).
    cbn in Hrn, Hrt, Hrc, Hrw.
    unfold show_results, getch in Hshow. cbn [keys set_screen] in Hshow.
    destruct (keys w2); [discriminate|]. injection Hshow as <-. cbn.
    split; [reflexivity|]. split; [congruence|].
    exists r, name, ls. repeat split; auto; try congruence; lia.
  - left. injection H as <- <-.
    destruct (run_stops _ _ _ _ Hrun)
      as (s0 & s1 & w0 & w1' & n & Hs & Hit & Hst); [discriminate|].
    destruct (iterations_consumed _ _ _ _ _ Hit) as (consumed & Hk & _).
    destruct (iterations_same_io _ _ _ _ _ Hit) as (Hso & Hre & _).
    apply run_setup_fields in Hs.
    destruct Hs as (_ & _ & _ & _ & _ & _ & _ & _ & _ & Hk0 & Hso0 & Hre0 & _).
    unfold loop_iter in Hst.
    assert (Hc : keys w1' = 27 :: keys w1 /\ stdout w1 = stdout w1'
                 /\ records w1 = records w1').
    { destruct (loop_iter_cancelled _ _ _ _ Hst) as (_ & _ & Hk1).
      split; [exact Hk1|].
      destruct (current_pos s1 <? total_chars s1); [|discriminate].
      destruct (py_index _ _) as [[a e]|]; [|discriminate].
      destruct (current_pos s1 >=? e).
      - destruct (current_page s1 <? total_pages s1 - 1); [|discriminate].
        destruct (redraw _ w1'); discriminate.
      - destruct (getch w1') as [[key w2]|] eqn:Hg; [|discriminate].
        apply getch_keys in Hg. destruct Hg as (_ & Hso2 & Hre2 & _).
        destruct (key =? 27).
        + unfold time_time in Hst. injection Hst as _ <-. cbn. auto.
        + destruct (handle_key s1 key); [|discriminate].
          destruct (redraw _ w2); discriminate. }
    destruct Hc as (Hk1 & Hso1 & Hre1). cbn.
    split; [reflexivity|]. split; [congruence|]. split.
    + rewrite <- Hk0, Hk, Hk1. apply in_or_app. right. now left.
    + congruence.
Qed.

Lemma main_writes_a_record_only_when_completed_witness :
  exists w' : World,
    main ["ttp"%string; "abc"%string] [("abc"%string, abc)]
      (terminal 24 80 [97; 127; 97; 98; 99; 32]) = Exit 0 w'
    /\ ((0 = 1 /\ records w' = records (terminal 24 80 [97; 127; 97; 98; 99; 32])
         /\ keys w' = keys (terminal 24 80 [97; 127; 97; 98; 99; 32])
         /\ ((List.length ["ttp"%string; "abc"%string] < 2)%nat
             \/ exists name,
                  nth_error ["ttp"%string; "abc"%string] 1 = Some name
                  /\ lookup_exercise name [("abc"%string, abc)] = None))
        \/ (0 = 0
            /\ records w' = records (terminal 24 80 [97; 127; 97; 98; 99; 32])
            /\ In 27 (keys (terminal 24 80 [97; 127; 97; 98; 99; 32]))
            /\ stdout w'
               = stdout (terminal 24 80 [97; 127; 97; 98; 99; 32])
                   ++ [canceled_message])
        \/ (0 = 0
            /\ stdout w' = stdout (terminal 24 80 [97; 127; 97; 98; 99; 32])
            /\ exists (r : SessionRecord) (name : string) (ls : list str),
                 records w'
                 = records (terminal 24 80 [97; 127; 97; 98; 99; 32]) ++ [r]
                 /\ nth_error ["ttp"%string; "abc"%string] 1 = Some name
                 /\ lookup_exercise name [("abc"%string, abc)] = Some ls
                 /\ rec_exercise r = name
                 /\ rec_total_chars r = len (join ls)
                 /\ rec_total_chars r
                    <= rec_correct_chars r + rec_wrong_chars r)).
Proof.
  eexists. split; [vm_compute; reflexivity|].
  eapply (main_writes_a_record_only_when_completed
            ["ttp"%string; "abc"%string] [("abc"%string, abc)]
            (terminal 24 80 [97; 127; 97; 98; 99; 32])).
  vm_compute. reflexivity.
Defined.

(** ** What the loop leaves alone, and where a page turn lands *)

(** X15. The loop of [run] never changes the exercise: after any number of
    iterations the name, the lines, the text, [total_chars], the pages, their
    ranges, their number, the rows of a page and [start_time] are what they
    were when the loop started, and [end_time] is still unset. *)
Theorem loop_leaves_the_exercise_alone
  (name : string) (ls : list str) (w w0 w1 : World)
  (s0 s : TypingExercise) (n : nat) :
  run_setup (init name ls) w = Ok (s0, w0) ->
  iterations n s0 w0 = Some (s, w1) ->
  exercise_name s = name
  /\ lines s = ls
  /\ text s = join ls
  /\ total_chars s = len (join ls)
  /\ pages s = pages s0
  /\ page_indices s = page_indices s0
  /\ total_pages s = total_pages s0
  /\ page_line_count s = Z.max 1 (fst (maxyx w) - 7)
  /\ start_time s = Some (clock w (ticks w))
  /\ end_time s = None.
Proof.
  intros Hs Hit.
  pose proof (iterations_same_exercise _ _ _ _ _ Hit)
    as (En & El & Etx & Etc & Est & Eet & Etp & Epl & Epg & Epi).
  rewrite En, El, Etx, Etc, Est, Eet, Etp, Epl, Epg, Epi.
  clear - Hs. unfold run_setup, time_time in Hs. cbn [maxyx] in Hs.
  destruct (maxyx w) as [height width]. apply bind_ok in Hs.
  destruct Hs as ([pgs idx] & _ & Hs). apply bind_ok in Hs.
  destruct Hs as (w2 & _ & Hs). injection Hs as <- _. cbn. repeat split.
Qed.

Lemma loop_leaves_the_exercise_alone_witness :
  exists (s0 s : TypingExercise) (w0 w1 : World),
    run_setup (init "two" two_lines) (terminal 8 80 [97; 10; 127]) = Ok (s0, w0)
    /\ iterations 4 s0 w0 = Some (s, w1)
    /\ exercise_name s = "two"%string
    /\ lines s = two_lines
    /\ text s = join two_lines
    /\ total_chars s = len (join two_lines)
    /\ pages s = pages s0
    /\ page_indices s = page_indices s0
    /\ total_pages s = total_pages s0
    /\ page_line_count s
       = Z.max 1 (fst (maxyx (terminal 8 80 [97; 10; 127])) - 7)
    /\ start_time s
       = Some (clock (terminal 8 80 [97; 10; 127])
                 (ticks (terminal 8 80 [97; 10; 127])))
    /\ end_time s = None.
Proof.
  do 4 eexists. split; [vm_compute; reflexivity|].
  split; [vm_compute; reflexivity|].
  eapply (loop_leaves_the_exercise_alone "two" two_lines
            (terminal 8 80 [97; 10; 127]) _ _ _ _ 4);
    [vm_compute; reflexivity | vm_compute; reflexivity].
Defined.

(** X16. A page turn of the loop of [run] lands on the position: when an
    iteration advances [current_page], the position is unchanged and is the
    start of the range of the page turned to (and the end of the range of the
    page left). *)
Theorem page_turn_lands_on_position
  (name : string) (ls : list str) (w w0 w1 w' : World)
  (s0 s s' : TypingExercise) (n : nat) :
  run_setup (init name ls) w = Ok (s0, w0) ->
  iterations n s0 w0 = Some (s, w1) ->
  loop_iter s w1 = Next s' w' ->
  current_page s' <> current_page s ->
  current_page s' = current_page s + 1
  /\ current_pos s' = current_pos s
  /\ exists left_start page_end,
       py_index (page_indices s) (current_page s)
         = Ok (left_start, current_pos s)
       /\ py_index (page_indices s') (current_page s')
            = Ok (current_pos s', page_end)
       /\ current_pos s' <= page_end.
Proof.
  intros Hs Hit Hstep Hturn.
  pose proof (run_setup_wf _ _ _ _ _ Hs) as (Hwf0 & _ & _ & Hp0 & _).
  pose proof (iterations_wf _ _ _ _ _ Hwf0 Hit) as Hwf.
  assert (Hb0 : forall a e,
             py_index (page_indices s0) (current_page s0) = Ok (a, e) ->
             current_pos s0 <= e).
  { intros a e Hae.
    destruct (current_range s0 Hwf0) as (a' & e' & Hr & Hle & _).
    rewrite Hr in Hae. injection Hae as <- <-. lia. }
  pose proof (iterations_page_bound _ _ _ _ _ Hwf0 Hb0 Hit) as Hb.
  apply loop_iter_next in Hstep.
  pose proof (iteration_wf _ _ _ _ Hwf Hstep) as Hwf'.
  destruct Hstep as [w2 a e Hlt Hidx Hge Hpg Hr
                    |key w2 w3 s1 a e Hlt Hidx Hin Hg Hk Hh Hr].
  - specialize (Hb _ _ Hidx). assert (e = current_pos s) by lia. subst e.
    split; [reflexivity|]. split; [reflexivity|].
    destruct (current_range _ Hwf') as (a' & e' & Hidx' & Hle & _).
    cbn [page_indices current_page set_current_page current_pos] in *.
    destruct Hwf as (_ & _ & _ & Htl & Hcp & _).
    pose proof Hidx as Hn1. apply py_index_nth in Hn1; [|lia].
    pose proof Hidx' as Hn2. apply py_index_nth in Hn2; [|lia].
    replace (Z.to_nat (current_page s + 1))
      with (S (Z.to_nat (current_page s))) in Hn2 by lia.
    destruct (tiles_adjacent _ _ _ _ _ _ Htl Hn1 Hn2) as (_ & Hadj).
    cbn [fst snd] in Hadj. subst a'.
    exists a, e'. repeat split; auto; lia.
  - apply handle_key_fields in Hh. destruct Hh as (Ecp & _). congruence.
Qed.

Lemma page_turn_lands_on_position_witness :
  exists (s0 s s' : TypingExercise) (w0 w1 w' : World),
    run_setup (init "two" two_lines) (terminal 8 80 [97; 10; 98]) = Ok (s0, w0)
    /\ iterations 2 s0 w0 = Some (s, w1)
    /\ loop_iter s w1 = Next s' w'
    /\ current_page s' <> current_page s
    /\ current_page s' = current_page s + 1
    /\ current_pos s' = current_pos s
    /\ exists left_start page_end,
         py_index (page_indices s) (current_page s)
           = Ok (left_start, current_pos s)
         /\ py_index (page_indices s') (current_page s')
              = Ok (current_pos s', page_end)
         /\ current_pos s' <= page_end.
Proof.
  do 6 eexists. split; [vm_compute; reflexivity|].
  split; [vm_compute; reflexivity|].
  split; [vm_compute; reflexivity|].
  split; [vm_compute; discriminate|].
  eapply (page_turn_lands_on_position "two" two_lines
            (terminal 8 80 [97; 10; 98]) _ _ _ _ _ _ 2);
    try (vm_compute; reflexivity).
  vm_compute. discriminate.
Defined.
